(** * VoiceReceiver: the receive-side packet pipeline

    A shallow embedding of [src/receive/VoiceReceiver.ts]: the datagram
    decoder ([decrypt], [parsePacket]), the signaling handler ([onWsPacket]),
    the datagram handler ([onUdpMessage]) and [subscribe].

    JavaScript values are modelled as follows.
    - A [Buffer] is the list of its bytes; an index or a length is a [Z],
      as the code computes with them ([buffer.length - 24] may be negative).
    - A call that may throw returns a [completion]: [Normal v] or [Throw e].
    - A mutable buffer or object passed by reference is threaded explicitly:
      a function returns the new contents next to its completion.
    - An [AudioReceiveStream] lives in a store and is named by its address,
      so that reference equality of two streams is equality of addresses. *)

From Stdlib Require Import ZArith.
From Stdlib.Strings Require Import Byte.
From stdpp Require Import base option list strings gmap fin_maps.

Local Open Scope Z_scope.

(** ** Exceptions *)

Inductive SubscribeTarget :=
| TargetSSRC (ssrc : Z)
| TargetUser (userId : string).

Inductive JsError :=
| ERR_OUT_OF_RANGE
| NoKnownSSRC (target : SubscribeTarget)
| FailedToParsePacket.

Inductive completion (A : Type) :=
| Normal (a : A)
| Throw (e : JsError).
Arguments Normal {A} a.
Arguments Throw {A} e.

Definition cbind {A B} (c : completion A) (k : A -> completion B) : completion B :=
  match c with
  | Normal a => k a
  | Throw e => Throw e
  end.

Notation "'let!' x ':=' c 'in' k" := (cbind c (fun x => k))
  (at level 10, x name, c at level 100, k at level 200).

Definition throws {A} (c : completion A) : Prop :=
  match c with
  | Normal _ => False
  | Throw _ => True
  end.

(** ** Node.js [Buffer]

    The operations of Node's [Buffer] that the receiver calls, with the
    range checks Node performs. *)
Module Buffer.

Definition t := list byte.

Definition u8 (b : byte) : Z := Z.of_N (Byte.to_N b).

Definition length (b : t) : Z := Z.of_nat (List.length b).

(** [buf[i]]: the byte at index [i], [undefined] (here [None]) outside the buffer. *)
Definition get (b : t) (i : Z) : option byte :=
  if i <? 0 then None else b !! Z.to_nat i.

(** [buf.readUInt8(offset)]: throws [ERR_OUT_OF_RANGE] unless
    [0 <= offset <= buf.length - 1]. *)
Definition readUInt8 (b : t) (offset : Z) : completion Z :=
  match get b offset with
  | Some x => Normal (u8 x)
  | None => Throw ERR_OUT_OF_RANGE
  end.

(** [buf.readUInt16BE(offset)]: throws unless [0 <= offset <= buf.length - 2]. *)
Definition readUInt16BE (b : t) (offset : Z) : completion Z :=
  match get b offset, get b (offset + 1) with
  | Some first, Some last => Normal (u8 first * 2 ^ 8 + u8 last)
  | _, _ => Throw ERR_OUT_OF_RANGE
  end.

(** [buf.readUInt32BE(offset)]: throws unless [0 <= offset <= buf.length - 4]. *)
Definition readUInt32BE (b : t) (offset : Z) : completion Z :=
  match get b offset, get b (offset + 1), get b (offset + 2), get b (offset + 3) with
  | Some first, Some b1, Some b2, Some last =>
      Normal (u8 first * 2 ^ 24 + u8 b1 * 2 ^ 16 + u8 b2 * 2 ^ 8 + u8 last)
  | _, _, _, _ => Throw ERR_OUT_OF_RANGE
  end.

(** The index adjustment of [buf.slice]: a negative index counts from the
    end, and the result is clamped to [0 .. length]. *)
Definition adjustOffset (offset len : Z) : Z :=
  if offset <? 0 then Z.max 0 (offset + len)
  else Z.min offset len.

(** [buf.slice(start, end)]; [end_ = None] is an omitted or [undefined] end. *)
Definition slice (b : t) (start : Z) (end_ : option Z) : t :=
  let srcLength := length b in
  let start := adjustOffset start srcLength in
  let end_ := match end_ with
              | Some e => adjustOffset e srcLength
              | None => srcLength
              end in
  let newLength := if start <? end_ then end_ - start else 0 in
  take (Z.to_nat newLength) (drop (Z.to_nat start) b).

(** [source.copy(target, targetStart, sourceStart, sourceEnd)]: the new
    contents of [target]. Node throws [ERR_OUT_OF_RANGE] when [targetStart]
    or [sourceEnd] is negative, or when [sourceStart] is negative or past
    the end of [source]; otherwise it copies as many bytes as the source
    range holds and the target has room for. (The receiver never passes a
    [sourceStart] past the end of [source].) *)
Definition copy (source target : t) (targetStart sourceStart : Z)
    (sourceEnd : option Z) : completion t :=
  if targetStart <? 0 then Throw ERR_OUT_OF_RANGE
  else if (sourceStart <? 0) || (length source <? sourceStart) then Throw ERR_OUT_OF_RANGE
  else
    let sourceEnd := default (length source) sourceEnd in
    if sourceEnd <? 0 then Throw ERR_OUT_OF_RANGE
    else if (length target <=? targetStart) || (sourceEnd <=? sourceStart) then Normal target
    else
      let nb := Z.min (Z.min (sourceEnd - sourceStart) (length target - targetStart))
                      (length source - sourceStart) in
      let chunk := take (Z.to_nat nb) (drop (Z.to_nat sourceStart) source) in
      Normal (take (Z.to_nat targetStart) target ++ chunk
              ++ drop (Z.to_nat (targetStart + nb)) target).

End Buffer.

(** JavaScript's [byte === n] on an indexed read ([undefined] equals no number). *)
Definition strictEq (byte : option byte) (n : Z) : bool :=
  match byte with
  | Some b => Buffer.u8 b =? n
  | None => false
  end.

(** JavaScript's [byte >> 4] on an indexed read ([undefined >> 4] is [0]). *)
Definition shiftRight4 (byte : option byte) : Z :=
  match byte with
  | Some b => Z.shiftr (Buffer.u8 b) 4
  | None => 0
  end.

(** ** The packet decoder *)
Section Decoder.

(** [methods.open] of [util/Secretbox]: the authenticated-decryption
    primitive, [None] when authentication fails. It is not part of
    [VoiceReceiver.ts] and stays a parameter. *)
Variable open : Buffer.t -> Buffer.t -> Buffer.t -> option Buffer.t.

(** [decrypt(buffer, mode, nonce, secretKey)] (lines 74-91). The first component of the
    result is the contents of the [nonce] buffer when the call ends (the
    caller's buffer is written in place), the second what the call returns:
    [Normal None] stands for [undefined]. *)
Definition decrypt (buffer : Buffer.t) (mode : string) (nonce secretKey : Buffer.t)
  : Buffer.t * completion (option Buffer.t) :=
  let chosen : completion (Buffer.t * option Z) :=
    if String.eqb mode "xsalsa20_poly1305_lite" then
      let! nonce' := Buffer.copy buffer nonce 0 (Buffer.length buffer - 4) None in
      Normal (nonce', Some (Buffer.length buffer - 4))
    else if String.eqb mode "xsalsa20_poly1305_suffix" then
      let! nonce' := Buffer.copy buffer nonce 0 (Buffer.length buffer - 24) None in
      Normal (nonce', Some (Buffer.length buffer - 24))
    else
      let! nonce' := Buffer.copy buffer nonce 0 0 (Some 12) in
      Normal (nonce', None) in
  match chosen with
  | Throw e => (nonce, Throw e)
  | Normal (nonce', end_) =>
      match open (Buffer.slice buffer 12 end_) nonce' secretKey with
      | None => (nonce', Normal None)
      | Some decrypted => (nonce', Normal (Some decrypted))
      end
  end.

(** The loop of [parsePacket] over the header extension elements (lines
    110-115): [n] iterations from [offset], the final offset. [packet[offset]]
    is [undefined] past the end of the packet: it is not [0], and
    [undefined >> 4] is [0]. *)
Fixpoint skipElements (packet : Buffer.t) (n : nat) (offset : Z) : Z :=
  match n with
  | O => offset
  | S n' =>
      let byte := Buffer.get packet offset in
      let offset := offset + 1 in
      if strictEq byte 0 then skipElements packet n' offset
      else skipElements packet n' (offset + (1 + shiftRight4 byte))
  end.

(** The body of [parsePacket] after decryption (lines 106-121): "Strip RTP
    Header Extensions (one-byte only)". *)
Definition stripHeaderExtensions (packet : Buffer.t) : completion Buffer.t :=
  if strictEq (Buffer.get packet 0) 0xbe && strictEq (Buffer.get packet 1) 0xde
     && (4 <? Buffer.length packet)
  then
    let! headerExtensionLength := Buffer.readUInt16BE packet 2 in
    let offset := skipElements packet (Z.to_nat headerExtensionLength) 4 in
    let! byte := Buffer.readUInt8 packet offset in
    let offset := if (byte =? 0x00) || (byte =? 0x02) then offset + 1 else offset in
    Normal (Buffer.slice packet offset None)
  else Normal packet.

(** [parsePacket(buffer, mode, nonce, secretKey)] (lines 102-124); the
    result is shaped as that of [decrypt]. *)
Definition parsePacket (buffer : Buffer.t) (mode : string) (nonce secretKey : Buffer.t)
  : Buffer.t * completion (option Buffer.t) :=
  match decrypt buffer mode nonce secretKey with
  | (nonce', Throw e) => (nonce', Throw e)
  | (nonce', Normal None) => (nonce', Normal None)
  | (nonce', Normal (Some packet)) =>
      (nonce', let! packet' := stripHeaderExtensions packet in Normal (Some packet'))
  end.

End Decoder.

(** ** The identity registry *)

(** Modelled from the spec: [SSRCMap] (receive/SSRCMap.ts) is not among the
    sources. The spec's Identity Registry holds at most one binding per
    participant; [update] inserts or replaces the participant's binding,
    [delete] removes it, and [get] resolves a participant identity or a
    primary source id to the matching binding or to nothing. *)
Module SSRCMap.

Record VoiceUserData := {
  userId : string;
  audioSSRC : Z;
  videoSSRC : option Z
}.

Abbreviation t := (gmap string VoiceUserData).

Definition update (data : VoiceUserData) (m : t) : t := <[userId data := data]> m.

Definition delete (user : string) (m : t) : t := base.delete user m.

Definition get (target : SubscribeTarget) (m : t) : option VoiceUserData :=
  match target with
  | TargetUser user => m !! user
  | TargetSSRC ssrc =>
      snd <$> list_find (fun data => audioSSRC data = ssrc) (snd <$> map_to_list m)
  end.

End SSRCMap.

(** ** Output channels *)

(** Modelled from the spec: [AudioReceiveStream] (receive/AudioReceiveStream.ts)
    is not among the sources. The spec's OutputChannel is an ordered sequence
    of frames that ends with its terminal failure, if any. [closeListeners]
    are the source ids whose subscription the stream's 'close' handlers
    delete: [subscribe] registers one with [stream.once('close', ...)]. *)
Record AudioReceiveStream := {
  frames : list Buffer.t;
  destroyed : option JsError;
  closeListeners : list Z
}.

Definition newAudioReceiveStream : AudioReceiveStream :=
  {| frames := []; destroyed := None; closeListeners := [] |}.

Definition push (packet : Buffer.t) (st : AudioReceiveStream) : AudioReceiveStream :=
  match destroyed st with
  | Some _ => st
  | None => {| frames := frames st ++ [packet]; destroyed := None;
               closeListeners := closeListeners st |}
  end.

Definition destroy (e : JsError) (st : AudioReceiveStream) : AudioReceiveStream :=
  match destroyed st with
  | Some _ => st
  | None => {| frames := frames st; destroyed := Some e;
               closeListeners := closeListeners st |}
  end.

Definition onceClose (ssrc : Z) (st : AudioReceiveStream) : AudioReceiveStream :=
  {| frames := frames st; destroyed := destroyed st;
     closeListeners := closeListeners st ++ [ssrc] |}.

(** ** The receiver *)

(** [Partial<ConnectionData>]: each field may be absent. *)
Record ConnectionData := {
  encryptionMode : option string;
  nonceBuffer : option Buffer.t;
  secretKey : option Buffer.t
}.

(** The receiver's fields and the store of the streams it has created: a
    stream is named by its index in [store]. *)
Record VoiceReceiver := {
  ssrcMap : SSRCMap.t;
  subscriptions : gmap Z nat;
  connectionData : ConnectionData;
  store : list AudioReceiveStream
}.

(** [new VoiceReceiver(voiceConnection)]. *)
Definition newVoiceReceiver : VoiceReceiver :=
  {| ssrcMap := ∅; subscriptions := ∅;
     connectionData := {| encryptionMode := None; nonceBuffer := None; secretKey := None |};
     store := [] |}.

Definition withSsrcMap (m : SSRCMap.t) (s : VoiceReceiver) : VoiceReceiver :=
  {| ssrcMap := m; subscriptions := subscriptions s;
     connectionData := connectionData s; store := store s |}.

Definition withStore (h : list AudioReceiveStream) (s : VoiceReceiver) : VoiceReceiver :=
  {| ssrcMap := ssrcMap s; subscriptions := subscriptions s;
     connectionData := connectionData s; store := h |}.

Definition withSubscriptions (m : gmap Z nat) (s : VoiceReceiver) : VoiceReceiver :=
  {| ssrcMap := ssrcMap s; subscriptions := m;
     connectionData := connectionData s; store := store s |}.

(** The nonce buffer is written in place: the receiver sees the new bytes. *)
Definition withNonceBuffer (nonce : Buffer.t) (s : VoiceReceiver) : VoiceReceiver :=
  {| ssrcMap := ssrcMap s; subscriptions := subscriptions s;
     connectionData :=
       {| encryptionMode := encryptionMode (connectionData s);
          nonceBuffer := Some nonce;
          secretKey := secretKey (connectionData s) |};
     store := store s |}.

(** *** Signaling packets *)

Inductive VoiceOPCodes := Speaking | ClientConnect | ClientDisconnect | OtherOpcode.

(** A field of the packet's payload that the code tests with [typeof]. *)
Inductive JsValue :=
| JsUndefined
| JsNumber (n : Z)
| JsString (s : string).

(** [packet.d]; [video_ssrc] is a number or [undefined]. *)
Record PacketData := {
  user_id : JsValue;
  ssrc : JsValue;
  audio_ssrc : JsValue;
  video_ssrc : option Z
}.

Record WsPacket := {
  op : VoiceOPCodes;
  d : option PacketData
}.

(** [packet.d?.field]. *)
Definition field (f : PacketData -> JsValue) (packet : WsPacket) : JsValue :=
  match d packet with
  | Some data => f data
  | None => JsUndefined
  end.

(** [onWsPacket(packet)] (lines 52-72). *)
Definition onWsPacket (packet : WsPacket) (s : VoiceReceiver) : VoiceReceiver :=
  match op packet, field user_id packet, field ssrc packet, field audio_ssrc packet with
  | ClientDisconnect, JsString user, _, _ =>
      withSsrcMap (SSRCMap.delete user (ssrcMap s)) s
  | Speaking, JsString user, JsNumber n, _ =>
      withSsrcMap
        (SSRCMap.update
           {| SSRCMap.userId := user; SSRCMap.audioSSRC := n; SSRCMap.videoSSRC := None |}
           (ssrcMap s)) s
  | ClientConnect, JsString user, _, JsNumber n =>
      let video := d packet ≫= video_ssrc in
      withSsrcMap
        (SSRCMap.update
           {| SSRCMap.userId := user; SSRCMap.audioSSRC := n;
              SSRCMap.videoSSRC := if decide (video = Some 0) then None else video |}
           (ssrcMap s)) s
  | _, _, _, _ => s
  end.

(** *** Datagrams and subscriptions *)
Section Receiver.

Variable open : Buffer.t -> Buffer.t -> Buffer.t -> option Buffer.t.

(** [onUdpMessage(msg)] (lines 132-154): the receiver after the call, and
    whether the call returned or threw. An encryption mode that is the
    empty string is falsy, as an absent one. *)
Definition onUdpMessage (msg : Buffer.t) (s : VoiceReceiver)
  : VoiceReceiver * completion unit :=
  if Buffer.length msg <=? 8 then (s, Normal tt)
  else
    match Buffer.readUInt32BE msg 8 with
    | Throw e => (s, Throw e)
    | Normal ssrc =>
        match subscriptions s !! ssrc with
        | None => (s, Normal tt)
        | Some stream =>
            match SSRCMap.get (TargetSSRC ssrc) (ssrcMap s) with
            | None => (s, Normal tt)
            | Some userData =>
                match encryptionMode (connectionData s),
                      nonceBuffer (connectionData s),
                      secretKey (connectionData s) with
                | Some mode, Some nonce, Some key =>
                    if String.eqb mode "" then (s, Normal tt)
                    else
                      let '(nonce', result) := parsePacket open msg mode nonce key in
                      let s := withNonceBuffer nonce' s in
                      match result with
                      | Throw e => (s, Throw e)
                      | Normal (Some packet) =>
                          (withStore (alter (push packet) stream (store s)) s, Normal tt)
                      | Normal None =>
                          (withStore (alter (destroy FailedToParsePacket) stream (store s)) s,
                           Normal tt)
                      end
                | _, _, _ => (s, Normal tt)
                end
            end
        end
    end.

End Receiver.

(** [!ssrc] for [ssrc = this.ssrcMap.get(target)?.audioSSRC]: true when
    it is [undefined] and when it is [0]. *)
Definition falsy (ssrc : option Z) : bool :=
  match ssrc with
  | None => true
  | Some n => n =? 0
  end.

(** [subscribe(target)] (lines 162-175): the receiver after the call, and
    the address of the stream it returns or the error it throws. A new
    stream is stored at the end of the store. *)
Definition subscribe (target : SubscribeTarget) (s : VoiceReceiver)
  : VoiceReceiver * completion nat :=
  let ssrc := SSRCMap.audioSSRC <$> SSRCMap.get target (ssrcMap s) in
  if falsy ssrc then (s, Throw (NoKnownSSRC target))
  else
    match ssrc with
    | None => (s, Throw (NoKnownSSRC target))
    | Some n =>
        match subscriptions s !! n with
        | Some existing => (s, Normal existing)
        | None =>
            let stream := List.length (store s) in
            let s := withStore (store s ++ [onceClose n newAudioReceiveStream]) s in
            (withSubscriptions (<[n := stream]> (subscriptions s)) s, Normal stream)
        end
    end.

(** The stream at address [stream] emits 'close': its handlers run, each
    deleting the subscription of its source id, and are dropped ([once]). *)
Definition emitClose (stream : nat) (s : VoiceReceiver) : VoiceReceiver :=
  match store s !! stream with
  | None => s
  | Some st =>
      let subs := foldl (fun m ssrc => base.delete ssrc m) (subscriptions s)
                        (closeListeners st) in
      let st := {| frames := frames st; destroyed := destroyed st; closeListeners := [] |} in
      withSubscriptions subs (withStore (<[stream := st]> (store s)) s)
  end.

(** ** Statements of the decoder's contract *)

(** The spec's cipher modes; every mode string other than the two named
    ones takes the code's last branch. *)
Inductive CipherMode := LiteNonce | SuffixNonce | NormalNonce.

Definition cipherMode (mode : string) : CipherMode :=
  if String.eqb mode "xsalsa20_poly1305_lite" then LiteNonce
  else if String.eqb mode "xsalsa20_poly1305_suffix" then SuffixNonce
  else NormalNonce.

(** The number of trailing bytes of the datagram that carry the nonce. *)
Definition trailingNonce (m : CipherMode) : nat :=
  match m with
  | LiteNonce => 4
  | SuffixNonce => 24
  | NormalNonce => 0
  end.

(** The bytes of the datagram that the mode names as nonce material. *)
Definition nonceBytes (m : CipherMode) (buffer : Buffer.t) : Buffer.t :=
  match m with
  | NormalNonce => take 12 buffer
  | _ => drop (length buffer - trailingNonce m) buffer
  end.

(** Where the ciphertext span ends. *)
Definition ciphertextEnd (m : CipherMode) (buffer : Buffer.t) : nat :=
  (length buffer - trailingNonce m)%nat.

(** [bytes] written over the start of [target], which keeps its length. *)
Definition writtenAtStart (bytes target : Buffer.t) : Buffer.t :=
  take (length target) (bytes ++ drop (length bytes) target).

(** [decrypt] selects the nonce and the ciphertext span as the spec says:
    the nonce bytes are written over the start of the scratch buffer, and
    the primitive is applied to the datagram up to [ciphertextEnd], less
    its first 12 bytes. *)
Definition selectsAsSpecified
    (open : Buffer.t -> Buffer.t -> Buffer.t -> option Buffer.t)
    (buffer : Buffer.t) (mode : string) (nonce key : Buffer.t) : Prop :=
  let m := cipherMode mode in
  let nonce' := writtenAtStart (nonceBytes m buffer) nonce in
  decrypt open buffer mode nonce key
  = (nonce', Normal (open (drop 12 (take (ciphertextEnd m buffer) buffer)) nonce' key)).

(** A stand-in for the decryption primitive in examples: it accepts a
    ciphertext of at least 16 bytes (the length of an authentication tag)
    and returns what follows them. *)
Definition exampleOpen (box nonce key : Buffer.t) : option Buffer.t :=
  if (length box <? 16)%nat then None else Some (drop 16 box).

(** ** The extension block as the spec words it *)

(** The low nibble of an element's leading byte. *)
Definition lowNibble (leading : byte) : Z := Z.land (Buffer.u8 leading) 15.

(** The spec's walk over [count] extension elements from [cursor]: a
    leading byte of all-zero bits is a padding element with no body, any
    other leading byte is followed by a body of its low nibble + 1 bytes.
    The spec does not say what happens when a leading byte lies outside
    the payload: [None]. *)
Fixpoint specSkipElements (payload : Buffer.t) (count cursor : nat) : option nat :=
  match count with
  | O => Some cursor
  | S count' =>
      match payload !! cursor with
      | None => None
      | Some leading =>
          let body := if Buffer.u8 leading =? 0 then 0 else lowNibble leading + 1 in
          specSkipElements payload count' (cursor + 1 + Z.to_nat body)
      end
  end.

(** The spec's stripping of a payload that starts with the marker and is
    longer than 4 bytes: the count is the big-endian 16-bit number at
    offset 2, the elements start at offset 4, one further byte is skipped
    when it is [0x00] or [0x02], and the rest of the payload is returned. *)
Definition specStripExtensions (payload : Buffer.t) : option Buffer.t :=
  match Buffer.readUInt16BE payload 2 with
  | Throw _ => None
  | Normal count =>
      cursor ← specSkipElements payload (Z.to_nat count) 4;
      let cursor :=
        match payload !! cursor with
        | Some next =>
            if (Buffer.u8 next =? 0) || (Buffer.u8 next =? 2) then S cursor else cursor
        | None => cursor
        end in
      Some (drop cursor payload)
  end.

(** ** Runs of the receiver *)

(** The session layer sets the receiver's public [connectionData]. *)
Definition withConnectionData (c : ConnectionData) (s : VoiceReceiver) : VoiceReceiver :=
  {| ssrcMap := ssrcMap s; subscriptions := subscriptions s;
     connectionData := c; store := store s |}.

(** The receiver after a sequence of datagrams, each handled to its end:
    a handler that throws leaves the state it had reached. *)
Definition runDatagrams
    (open : Buffer.t -> Buffer.t -> Buffer.t -> option Buffer.t)
    (msgs : list Buffer.t) (s : VoiceReceiver) : VoiceReceiver :=
  foldl (fun s msg => fst (onUdpMessage open msg s)) s msgs.

(** Every subscription names a stream of the store whose 'close' handlers
    delete that subscription: what [subscribe] establishes. *)
Definition wellFormed (s : VoiceReceiver) : Prop :=
  forall (ssrc : Z) (stream : nat),
    subscriptions s !! ssrc = Some stream ->
    exists st, store s !! stream = Some st /\ ssrc ∈ closeListeners st.

(** [subscribe] as the spec states it: it throws exactly when the registry
    has no binding for the target, and returns a channel whenever the
    registry has one. *)
Definition subscribeAsStated (target : SubscribeTarget) (s : VoiceReceiver) : Prop :=
  (throws (snd (subscribe target s)) <-> SSRCMap.get target (ssrcMap s) = None)
  /\ (is_Some (SSRCMap.get target (ssrcMap s)) ->
      exists stream, snd (subscribe target s) = Normal stream).

(** ** Example data *)

(** A 12-byte transport header whose source id, at offset 8, is 1234. *)
Definition exampleHeader : Buffer.t :=
  [x80; x78; x00; x01; x00; x00; x00; x01; x00; x00; x04; xd2].

Definition exampleTag : Buffer.t := replicate 16 x00.

Definition exampleConnectionData (mode : string) : ConnectionData :=
  {| encryptionMode := Some mode;
     nonceBuffer := Some (replicate 24 x00);
     secretKey := Some (replicate 32 x00) |}.

Definition speaking (user : string) (n : Z) : WsPacket :=
  {| op := Speaking;
     d := Some {| user_id := JsString user; ssrc := JsNumber n;
                  audio_ssrc := JsUndefined; video_ssrc := None |} |}.

(** A receiver keyed for [mode] that knows "alice" as source 1234 and has
    one subscription, to her. *)
Definition exampleReceiver (mode : string) : VoiceReceiver :=
  withConnectionData (exampleConnectionData mode)
    (fst (subscribe (TargetSSRC 1234) (onWsPacket (speaking "alice" 1234) newVoiceReceiver))).

(** A decrypted payload with one extension element, [0x10 0xaa] in the
    one-byte format (low nibble 0: one body byte), followed by three bytes
    of audio. *)
Definition examplePayload : Buffer.t :=
  [xbe; xde; x00; x01; x10; xaa; xbb; xcc; xdd].

(** ** Statements about the datagram handler *)

(** The cipher context is incomplete: one of its three fields is absent. *)
Definition incomplete (c : ConnectionData) : Prop :=
  encryptionMode c = None \/ nonceBuffer c = None \/ secretKey c = None.

(** The spec's conditions for a silent drop. *)
Definition dropCondition (msg : Buffer.t) (s : VoiceReceiver) : Prop :=
  Buffer.length msg <= 8
  \/ (exists ssrc, Buffer.readUInt32BE msg 8 = Normal ssrc
                   /\ subscriptions s !! ssrc = None)
  \/ (exists ssrc, Buffer.readUInt32BE msg 8 = Normal ssrc
                   /\ SSRCMap.get (TargetSSRC ssrc) (ssrcMap s) = None)
  \/ incomplete (connectionData s).

(** The outcomes of [onUdpMessage]: it drops the datagram and leaves the
    receiver as it is; or it throws while it reads the source id, and
    leaves the receiver as it is; or it runs [parsePacket] for the stream
    subscribed to the datagram's source id, and then only the nonce
    buffer and that stream can differ. *)
Inductive Outcome
    (open : Buffer.t -> Buffer.t -> Buffer.t -> option Buffer.t)
    (msg : Buffer.t) (s : VoiceReceiver)
  : VoiceReceiver * completion unit -> Prop :=
| Dropped : Outcome open msg s (s, Normal tt)
| NoSourceId : Outcome open msg s (s, Throw ERR_OUT_OF_RANGE)
| Parsed ssrc stream mode nonce key nonce' result :
    Buffer.readUInt32BE msg 8 = Normal ssrc ->
    subscriptions s !! ssrc = Some stream ->
    is_Some (SSRCMap.get (TargetSSRC ssrc) (ssrcMap s)) ->
    connectionData s
    = {| encryptionMode := Some mode; nonceBuffer := Some nonce; secretKey := Some key |} ->
    parsePacket open msg mode nonce key = (nonce', result) ->
    Outcome open msg s
      (match result with
       | Throw e => (withNonceBuffer nonce' s, Throw e)
       | Normal (Some packet) =>
           (withStore (alter (push packet) stream (store s)) (withNonceBuffer nonce' s),
            Normal tt)
       | Normal None =>
           (withStore (alter (destroy FailedToParsePacket) stream (store s))
              (withNonceBuffer nonce' s),
            Normal tt)
       end).

(** A [ClientConnect] packet with a string user id and a numeric audio
    source id; [other] is its [ssrc] field, which the handler does not read. *)
Definition clientConnect (user : string) (audio : Z) (video : option Z) (other : JsValue)
  : WsPacket :=
  {| op := ClientConnect;
     d := Some {| user_id := JsString user; ssrc := other;
                  audio_ssrc := JsNumber audio; video_ssrc := video |} |}.

(** A lite-mode datagram for source 1234: header, tag, [payload], and a
    4-byte nonce. *)
Definition liteDatagram (payload : Buffer.t) : Buffer.t :=
  exampleHeader ++ exampleTag ++ payload ++ [x00; x00; x00; x07].

(** The states a receiver can be in: it is created, and then handles
    signaling packets and datagrams, takes subscriptions, has its cipher
    context set, and sees its streams close, in any order. *)
Inductive reachable (open : Buffer.t -> Buffer.t -> Buffer.t -> option Buffer.t)
  : VoiceReceiver -> Prop :=
| reach_new : reachable open newVoiceReceiver
| reach_onWsPacket packet s :
    reachable open s -> reachable open (onWsPacket packet s)
| reach_onUdpMessage msg s :
    reachable open s -> reachable open (fst (onUdpMessage open msg s))
| reach_subscribe target s :
    reachable open s -> reachable open (fst (subscribe target s))
| reach_connectionData c s :
    reachable open s -> reachable open (withConnectionData c s)
| reach_close stream s :
    reachable open s -> reachable open (emitClose stream s).

(** ** Further statements *)

(** The payload starts with the extension marker [0xBE 0xDE]. *)
Definition hasMarker (packet : Buffer.t) : Prop :=
  exists rest, packet = xbe :: xde :: rest.

(** A [ClientDisconnect] packet with a string user id. *)
Definition clientDisconnect (user : string) : WsPacket :=
  {| op := ClientDisconnect;
     d := Some {| user_id := JsString user; ssrc := JsUndefined;
                  audio_ssrc := JsUndefined; video_ssrc := None |} |}.

(** A 'close' handler of a stored stream deletes a subscription that
    names this stream. *)
Definition handlersMatch (s : VoiceReceiver) : Prop :=
  forall (r : nat) (st : AudioReceiveStream) (n : Z),
    store s !! r = Some st -> n ∈ closeListeners st -> subscriptions s !! n = Some r.

(** A stored stream has at most one 'close' handler. *)
Definition singleHandler (s : VoiceReceiver) : Prop :=
  forall (r : nat) (st : AudioReceiveStream),
    store s !! r = Some st -> (length (closeListeners st) <= 1)%nat.

(** Subscriptions and streams agree in both directions. *)
Definition consistent (s : VoiceReceiver) : Prop :=
  wellFormed s /\ handlersMatch s /\ singleHandler s.

(** ** Facts about buffers *)

Lemma buffer_length_nat (b : Buffer.t) : Buffer.length b = Z.of_nat (length b).
Proof. reflexivity. Qed.

Lemma writtenAtStart_length (bytes target : Buffer.t) :
  length (writtenAtStart bytes target) = length target.
Proof.
  unfold writtenAtStart.
  rewrite length_take, length_app, length_drop. lia.
Qed.

Lemma writtenAtStart_fits (bytes target : Buffer.t) :
  (length bytes <= length target)%nat ->
  writtenAtStart bytes target = bytes ++ drop (length bytes) target.
Proof.
  intros Hfit. unfold writtenAtStart.
  apply take_ge. rewrite length_app, length_drop. lia.
Qed.

Lemma take_capped {A} (n : nat) (l : list A) : take n l = take (n `min` length l) l.
Proof.
  destruct (Nat.min_spec n (length l)) as [[_ ->] | [Hge ->]]; [done |].
  now rewrite take_ge, firstn_all by lia.
Qed.

(** Copying a range of [source] to the start of [target] writes the
    range's bytes over the start of [target]. *)
Lemma copy_range (source target : Buffer.t) (sourceStart : Z) (sourceEnd : option Z) :
  0 <= sourceStart <= Buffer.length source ->
  0 <= default (Buffer.length source) sourceEnd ->
  Buffer.copy source target 0 sourceStart sourceEnd
  = Normal (writtenAtStart
              (take (Z.to_nat (default (Buffer.length source) sourceEnd - sourceStart))
                    (drop (Z.to_nat sourceStart) source))
              target).
Proof.
  intros Hstart Hend. unfold Buffer.copy.
  set (e := default (Buffer.length source) sourceEnd) in *.
  rewrite buffer_length_nat in *.
  replace (0 <? 0) with false by reflexivity.
  replace (sourceStart <? 0) with false by lia.
  replace (Z.of_nat (length source) <? sourceStart) with false by lia.
  replace (e <? 0) with false by lia.
  cbn [orb].
  set (rest := drop (Z.to_nat sourceStart) source).
  assert (Hrest : length rest = Z.to_nat (Z.of_nat (length source) - sourceStart)).
  { unfold rest. rewrite length_drop. lia. }
  destruct (Z.leb_spec (Buffer.length target) 0) as [Hempty | Hroom];
    rewrite buffer_length_nat in *; cbn [orb].
  { assert (length target = 0%nat) as Hnil by lia.
    apply length_zero_iff_nil in Hnil. subst target.
    unfold writtenAtStart. now rewrite take_0. }
  destruct (Z.leb_spec e sourceStart) as [Hnone | Hsome].
  { replace (Z.to_nat (e - sourceStart)) with 0%nat by lia.
    unfold writtenAtStart. rewrite take_0. cbn.
    now rewrite drop_0, firstn_all. }
  f_equal. rewrite take_0, app_nil_l, Z.sub_0_r, Z.add_0_l.
  set (nb := Z.min (Z.min (e - sourceStart) (Z.of_nat (length target)))
                   (Z.of_nat (length source) - sourceStart)).
  set (k := Z.to_nat (e - sourceStart)).
  unfold writtenAtStart.
  assert (Hchunk : take (Z.to_nat nb) rest = take (length target) (take k rest)).
  { rewrite take_take, (take_capped (Z.to_nat nb) rest),
      (take_capped (length target `min` k) rest).
    f_equal. lia. }
  rewrite Hchunk.
  assert (Hlen : length (take k rest) = (k `min` length rest)%nat) by apply length_take.
  destruct (decide (length (take k rest) <= length target)%nat) as [Hfit | Hover].
  - rewrite (take_ge (take k rest)) by lia.
    rewrite (take_ge (take k rest ++ _)) by (rewrite length_app, length_drop; lia).
    do 2 f_equal. lia.
  - rewrite take_app_le by lia.
    rewrite (drop_ge target) by lia.
    now rewrite app_nil_r.
Qed.

(** A slice from a non-negative start is a prefix of what follows the start. *)
Lemma slice_is_prefix_after_start (b : Buffer.t) (start : Z) (end_ : option Z) :
  0 <= start ->
  exists n, Buffer.slice b start end_ = take n (drop (Z.to_nat start) b).
Proof.
  intros Hstart. unfold Buffer.slice, Buffer.adjustOffset.
  replace (start <? 0) with false by lia.
  rewrite buffer_length_nat.
  destruct (Z.min_spec start (Z.of_nat (length b))) as [[Hlt ->] | [Hge ->]].
  - eauto.
  - exists 0%nat. rewrite take_0.
    rewrite Nat2Z.id, drop_all. apply take_nil.
Qed.

(** A slice between bounds inside the buffer. *)
Lemma slice_within (b : Buffer.t) (start end_ : nat) :
  (end_ <= length b)%nat ->
  Buffer.slice b (Z.of_nat start) (Some (Z.of_nat end_)) = drop start (take end_ b).
Proof.
  intros Hend. unfold Buffer.slice, Buffer.adjustOffset.
  rewrite buffer_length_nat.
  destruct (Z.ltb_spec (Z.of_nat start) 0); [lia |].
  destruct (Z.ltb_spec (Z.of_nat end_) 0); [lia |].
  rewrite (Z.min_l (Z.of_nat end_)) by lia.
  destruct (Z.min_spec (Z.of_nat start) (Z.of_nat (length b))) as [[Hlt ->] | [Hge ->]].
  - rewrite Nat2Z.id. destruct (Z.ltb_spec (Z.of_nat start) (Z.of_nat end_)).
    + rewrite take_drop_commute. do 2 f_equal. lia.
    + rewrite take_0. symmetry. apply drop_ge. rewrite length_take. lia.
  - destruct (Z.ltb_spec (Z.of_nat (length b)) (Z.of_nat end_)); [lia |].
    rewrite take_0. symmetry. apply drop_ge. rewrite length_take. lia.
Qed.

Lemma slice_to_end (b : Buffer.t) (start : nat) :
  Buffer.slice b (Z.of_nat start) None = drop start b.
Proof.
  unfold Buffer.slice, Buffer.adjustOffset. rewrite buffer_length_nat.
  destruct (Z.ltb_spec (Z.of_nat start) 0); [lia |].
  destruct (Z.min_spec (Z.of_nat start) (Z.of_nat (length b))) as [[Hlt ->] | [Hge ->]].
  - destruct (Z.ltb_spec (Z.of_nat start) (Z.of_nat (length b))); [| lia].
    rewrite Nat2Z.id. apply take_ge. rewrite length_drop. lia.
  - rewrite Z.ltb_irrefl, take_0. symmetry. apply drop_ge. lia.
Qed.

(** [readUInt32BE] returns exactly when its four bytes lie in the buffer. *)
Lemma readUInt32BE_length (msg : Buffer.t) (offset ssrc : Z) :
  Buffer.readUInt32BE msg offset = Normal ssrc ->
  0 <= offset /\ offset + 4 <= Buffer.length msg.
Proof.
  unfold Buffer.readUInt32BE, Buffer.get. intros Hread.
  destruct (Z.ltb_spec offset 0); [discriminate |].
  destruct (Z.ltb_spec (offset + 1) 0); [lia |].
  destruct (Z.ltb_spec (offset + 2) 0); [lia |].
  destruct (Z.ltb_spec (offset + 3) 0); [lia |].
  destruct (msg !! Z.to_nat offset); [| discriminate].
  destruct (msg !! Z.to_nat (offset + 1)); [| discriminate].
  destruct (msg !! Z.to_nat (offset + 2)); [| discriminate].
  destruct (msg !! Z.to_nat (offset + 3)) eqn:Hlast; [| discriminate].
  apply lookup_lt_Some in Hlast. rewrite buffer_length_nat. lia.
Qed.

Lemma readUInt32BE_in_range (msg : Buffer.t) (offset : Z) :
  0 <= offset -> offset + 4 <= Buffer.length msg ->
  exists ssrc, Buffer.readUInt32BE msg offset = Normal ssrc.
Proof.
  intros Hoff Hlen. rewrite buffer_length_nat in Hlen.
  unfold Buffer.readUInt32BE, Buffer.get.
  destruct (Z.ltb_spec offset 0); [lia |].
  destruct (Z.ltb_spec (offset + 1) 0); [lia |].
  destruct (Z.ltb_spec (offset + 2) 0); [lia |].
  destruct (Z.ltb_spec (offset + 3) 0); [lia |].
  destruct (msg !! Z.to_nat offset) eqn:Hb0; [| apply lookup_ge_None in Hb0; lia].
  destruct (msg !! Z.to_nat (offset + 1)) eqn:Hb1; [| apply lookup_ge_None in Hb1; lia].
  destruct (msg !! Z.to_nat (offset + 2)) eqn:Hb2; [| apply lookup_ge_None in Hb2; lia].
  destruct (msg !! Z.to_nat (offset + 3)) eqn:Hb3; [| apply lookup_ge_None in Hb3; lia].
  eauto.
Qed.

(** ** [decrypt]: the nonce and the ciphertext span *)

Lemma cipherMode_lite : cipherMode "xsalsa20_poly1305_lite" = LiteNonce.
Proof. reflexivity. Qed.

Lemma cipherMode_suffix : cipherMode "xsalsa20_poly1305_suffix" = SuffixNonce.
Proof. reflexivity. Qed.

Lemma drop_take_is_prefix {A} (l : list A) (m e : nat) :
  drop m (take e l) = take (e - m) (drop m l).
Proof.
  destruct (decide (m <= e)%nat) as [Hle | Hgt].
  - rewrite take_drop_commute. do 2 f_equal. lia.
  - replace (e - m)%nat with 0%nat by lia.
    rewrite take_0. apply drop_ge. rewrite length_take. lia.
Qed.

Lemma copy_tail (buffer nonce : Buffer.t) (k : nat) :
  (k <= length buffer)%nat ->
  Buffer.copy buffer nonce 0 (Buffer.length buffer - Z.of_nat k) None
  = Normal (writtenAtStart (drop (length buffer - k) buffer) nonce).
Proof.
  intros Hk.
  rewrite copy_range; cbn [default]; rewrite ?buffer_length_nat; try lia.
  do 2 f_equal.
  replace (Z.to_nat (Z.of_nat (length buffer) - Z.of_nat k)) with (length buffer - k)%nat by lia.
  apply take_ge. rewrite length_drop. lia.
Qed.

Lemma slice_tail (buffer : Buffer.t) (k : nat) :
  (k <= length buffer)%nat ->
  Buffer.slice buffer 12 (Some (Buffer.length buffer - Z.of_nat k))
  = drop 12 (take (length buffer - k) buffer).
Proof.
  intros Hk. rewrite buffer_length_nat.
  replace (Z.of_nat (length buffer) - Z.of_nat k) with (Z.of_nat (length buffer - k)) by lia.
  apply (slice_within buffer 12). lia.
Qed.

(** [decrypt] with the nonce in the last [k] bytes of the datagram, which
    has them: the two trailing-nonce branches of the code. *)
Lemma decrypt_trailing open (buffer : Buffer.t) (mode : string) (nonce key : Buffer.t) :
  cipherMode mode <> NormalNonce ->
  (trailingNonce (cipherMode mode) <= length buffer)%nat ->
  let k := trailingNonce (cipherMode mode) in
  let nonce' := writtenAtStart (drop (length buffer - k) buffer) nonce in
  decrypt open buffer mode nonce key
  = (nonce', Normal (open (drop 12 (take (length buffer - k) buffer)) nonce' key)).
Proof.
  intros Hmode Hlen. unfold decrypt. unfold cipherMode in *.
  destruct (String.eqb mode "xsalsa20_poly1305_lite");
    [| destruct (String.eqb mode "xsalsa20_poly1305_suffix"); [| done]];
    cbn [trailingNonce] in *;
    match type of Hlen with
    | (?k <= _)%nat =>
        pose proof (copy_tail buffer nonce k Hlen) as Hcopy;
        pose proof (slice_tail buffer k Hlen) as Hslice;
        let z := eval vm_compute in (Z.of_nat k) in
        change (Z.of_nat k) with z in Hcopy, Hslice
    end;
    rewrite Hcopy; cbn [cbind]; rewrite Hslice;
    now destruct (open _ _ _).
Qed.

(** [decrypt] on a datagram shorter than the trailing nonce: the copy of
    the nonce throws, the nonce buffer is not written and the primitive is
    not called. *)
Lemma decrypt_trailing_short open (buffer : Buffer.t) (mode : string) (nonce key : Buffer.t) :
  (length buffer < trailingNonce (cipherMode mode))%nat ->
  decrypt open buffer mode nonce key = (nonce, Throw ERR_OUT_OF_RANGE).
Proof.
  intros Hlen. unfold decrypt. unfold cipherMode in Hlen.
  assert (Hcopy : forall k : nat, (length buffer < k)%nat ->
            Buffer.copy buffer nonce 0 (Buffer.length buffer - Z.of_nat k) None
            = Throw ERR_OUT_OF_RANGE).
  { intros k Hk. unfold Buffer.copy. rewrite buffer_length_nat.
    destruct (Z.ltb_spec (Z.of_nat (length buffer) - Z.of_nat k) 0); [done | lia]. }
  destruct (String.eqb mode "xsalsa20_poly1305_lite");
    [| destruct (String.eqb mode "xsalsa20_poly1305_suffix")]; cbn in Hlen.
  - pose proof (Hcopy 4%nat Hlen) as Hthrow.
    change (Z.of_nat 4) with 4 in Hthrow. now rewrite Hthrow.
  - pose proof (Hcopy 24%nat Hlen) as Hthrow.
    change (Z.of_nat 24) with 24 in Hthrow. now rewrite Hthrow.
  - lia.
Qed.

(** [decrypt] in the last branch: the first 12 bytes are the nonce. *)
Lemma decrypt_normal open (buffer : Buffer.t) (mode : string) (nonce key : Buffer.t) :
  cipherMode mode = NormalNonce ->
  let nonce' := writtenAtStart (take 12 buffer) nonce in
  decrypt open buffer mode nonce key
  = (nonce', Normal (open (drop 12 buffer) nonce' key)).
Proof.
  intros Hmode nonce'. unfold decrypt. unfold cipherMode in Hmode.
  destruct (String.eqb mode "xsalsa20_poly1305_lite"); [done |].
  destruct (String.eqb mode "xsalsa20_poly1305_suffix"); [done |].
  rewrite copy_range; cbn; rewrite ?buffer_length_nat; try lia.
  cbn [cbind]. pose proof (slice_to_end buffer 12) as Hslice.
  change (Z.of_nat 12) with 12 in Hslice. rewrite Hslice.
  change (Z.to_nat (12 - 0)) with 12%nat. rewrite drop_0.
  now destruct (open _ _ _).
Qed.

(** [decrypt] on a datagram that holds the mode's trailing nonce. *)
Lemma decrypt_selects open (buffer : Buffer.t) (mode : string) (nonce key : Buffer.t) :
  (trailingNonce (cipherMode mode) <= length buffer)%nat ->
  selectsAsSpecified open buffer mode nonce key.
Proof.
  intros Hlen. unfold selectsAsSpecified.
  destruct (cipherMode mode) eqn:Hmode.
  - pose proof (decrypt_trailing open buffer mode nonce key) as Hdec.
    rewrite Hmode in Hdec. now apply Hdec.
  - pose proof (decrypt_trailing open buffer mode nonce key) as Hdec.
    rewrite Hmode in Hdec. now apply Hdec.
  - rewrite (decrypt_normal open buffer mode nonce key Hmode).
    unfold ciphertextEnd, nonceBytes. cbn [trailingNonce].
    now rewrite Nat.sub_0_r, firstn_all.
Qed.

(** The nonce material has the mode's length when the datagram holds it,
    and then fills exactly the start of a scratch buffer that has room. *)
Lemma nonceBytes_length (m : CipherMode) (buffer : Buffer.t) :
  (trailingNonce m <= length buffer)%nat ->
  length (nonceBytes m buffer)
  = match m with NormalNonce => (12 `min` length buffer)%nat | _ => trailingNonce m end.
Proof.
  intros Hlen. destruct m; cbn [nonceBytes trailingNonce] in *;
    rewrite ?length_drop, ?length_take; lia.
Qed.

(** A datagram that is shorter than the suffix mode's 24-byte nonce makes
    [parsePacket] throw: no decode failure is returned. *)
Lemma parsePacket_suffix_short open (buffer nonce key : Buffer.t) :
  (length buffer < 24)%nat ->
  parsePacket open buffer "xsalsa20_poly1305_suffix" nonce key
  = (nonce, Throw ERR_OUT_OF_RANGE).
Proof.
  intros Hlen. unfold parsePacket.
  now rewrite decrypt_trailing_short by (rewrite cipherMode_suffix; exact Hlen).
Qed.

(** C2 (amended). For every cipher mode and every datagram that holds the
    mode's trailing nonce (at least 4 bytes in lite mode, at least 24 in
    suffix mode, any datagram in normal mode), [decrypt] selects the nonce
    and the ciphertext span as specified: the last 4 (lite) or 24 (suffix)
    bytes, or the first 12 bytes (normal), are written over the start of
    the nonce scratch buffer, and the span handed to the primitive ends 4
    or 24 bytes before the datagram's end, or at its end. *)
Theorem decrypt_selects_nonce_and_span
    open (buffer : Buffer.t) (mode : string) (nonce key : Buffer.t) :
  (trailingNonce (cipherMode mode) <= length buffer)%nat ->
  selectsAsSpecified open buffer mode nonce key.
Proof. apply decrypt_selects. Qed.

(** C10. In every cipher mode the ciphertext span handed to the
    authenticated-decryption primitive begins at byte offset 12 of the
    datagram: either [decrypt] throws before it calls the primitive, or
    its result is the primitive's on a prefix of what follows the
    datagram's first 12 bytes, whatever the primitive is. *)
Theorem ciphertext_begins_at_offset_12 (buffer : Buffer.t) (mode : string) (nonce key : Buffer.t) :
  (forall open, decrypt open buffer mode nonce key = (nonce, Throw ERR_OUT_OF_RANGE))
  \/ (exists (nonce' : Buffer.t) (n : nat), forall open,
        decrypt open buffer mode nonce key
        = (nonce', Normal (open (take n (drop 12 buffer)) nonce' key))).
Proof.
  destruct (decide (trailingNonce (cipherMode mode) <= length buffer)%nat) as [Hlen | Hshort].
  - right.
    exists (writtenAtStart (nonceBytes (cipherMode mode) buffer) nonce),
           (ciphertextEnd (cipherMode mode) buffer - 12)%nat.
    intros open. rewrite <- drop_take_is_prefix.
    now apply decrypt_selects.
  - left. intros open. apply decrypt_trailing_short. lia.
Qed.


(** ** [parsePacket]: the header extension block *)

Lemma skipElements_step (packet : Buffer.t) (n : nat) (offset : Z) :
  skipElements packet (S n) offset
  = skipElements packet n
      (if strictEq (Buffer.get packet offset) 0 then offset + 1
       else offset + 1 + (1 + shiftRight4 (Buffer.get packet offset))).
Proof. cbn [skipElements]. now destruct (strictEq _ 0). Qed.

(** The loop never moves the offset backwards. *)
Lemma skipElements_ge (packet : Buffer.t) (n : nat) (offset : Z) :
  offset <= skipElements packet n offset.
Proof.
  revert offset. induction n as [| n IH]; intros offset; [cbn; lia |].
  rewrite skipElements_step.
  assert (0 <= shiftRight4 (Buffer.get packet offset)) as Hshift.
  { unfold shiftRight4. destruct (Buffer.get packet offset); [| lia].
    apply Z.shiftr_nonneg. unfold Buffer.u8. lia. }
  destruct (strictEq _ 0); etransitivity; [| apply IH | | apply IH]; lia.
Qed.

(** An element with a non-zero leading byte moves the offset past the
    leading byte and a body of the byte's high nibble + 1 bytes; a zero
    leading byte is passed alone. *)
Lemma skipElements_element (packet : Buffer.t) (n : nat) (offset : Z) (leading : byte) :
  Buffer.get packet offset = Some leading ->
  skipElements packet (S n) offset
  = skipElements packet n
      (if Buffer.u8 leading =? 0 then offset + 1
       else offset + 1 + (Buffer.u8 leading / 16 + 1)).
Proof.
  intros Hget. rewrite skipElements_step, Hget. cbn [strictEq shiftRight4].
  rewrite Z.shiftr_div_pow2 by lia. change (2 ^ 4) with 16.
  destruct (Buffer.u8 leading =? 0); f_equal; lia.
Qed.

(** C1. On [examplePayload] the code takes the body length of the element
    [0x10] from the high nibble (1 + 1 = 2 bytes) and returns the last two
    bytes, also as the result of [parsePacket] on a datagram that decrypts
    to this payload, where the low nibble + 1 of the claim gives one body
    byte and the last three bytes. *)
Theorem stripHeaderExtensions_high_nibble :
  stripHeaderExtensions examplePayload = Normal [xcc; xdd]
  /\ snd (parsePacket exampleOpen (liteDatagram examplePayload) "xsalsa20_poly1305_lite"
            (replicate 24 x00) (replicate 32 x00))
     = Normal (Some [xcc; xdd])
  /\ specStripExtensions examplePayload = Some [xbb; xcc; xdd].
Proof. repeat split; reflexivity. Qed.

(** ** The receiver: what a datagram can change *)

Lemma lookup_foldl_delete (l : list Z) (m : gmap Z nat) (k : Z) :
  foldl (fun m ssrc => base.delete ssrc m) m l !! k
  = if decide (k ∈ l) then None else m !! k.
Proof.
  revert m. induction l as [| x l IH]; intros m; cbn [foldl].
  - case_decide as Hin; [| done]. now apply elem_of_nil in Hin.
  - rewrite IH. destruct (decide (k = x)) as [-> | Hne].
    + rewrite lookup_delete_eq, (decide_True (P := x ∈ x :: l)) by (apply elem_of_cons; auto).
      now case_decide.
    + rewrite lookup_delete_ne by done.
      destruct (decide (k ∈ l)) as [Hin | Hout].
      * now rewrite decide_True by (apply elem_of_cons; auto).
      * rewrite decide_False; [done |].
        intros [? | ?]%elem_of_cons; done.
Qed.

Lemma push_closeListeners (packet : Buffer.t) (st : AudioReceiveStream) :
  closeListeners (push packet st) = closeListeners st.
Proof. unfold push. now destruct (destroyed st). Qed.

Lemma destroy_closeListeners (e : JsError) (st : AudioReceiveStream) :
  closeListeners (destroy e st) = closeListeners st.
Proof. unfold destroy. now destruct (destroyed st). Qed.

Section ReceiverFacts.

Variable open : Buffer.t -> Buffer.t -> Buffer.t -> option Buffer.t.

Lemma onUdpMessage_outcome (msg : Buffer.t) (s : VoiceReceiver) :
  Outcome open msg s (onUdpMessage open msg s).
Proof.
  unfold onUdpMessage.
  destruct (Buffer.length msg <=? 8); [constructor |].
  destruct (Buffer.readUInt32BE msg 8) as [ssrc | e] eqn:Hread.
  2: { unfold Buffer.readUInt32BE in Hread.
       repeat case_match; try discriminate; injection Hread as <-; constructor. }
  destruct (subscriptions s !! ssrc) as [stream |] eqn:Hsub; [| constructor].
  destruct (SSRCMap.get (TargetSSRC ssrc) (ssrcMap s)) as [userData |] eqn:Hget;
    [| constructor].
  destruct (connectionData s) as [[mode |] [nonce |] [key |]] eqn:Hcd;
    cbn [encryptionMode nonceBuffer secretKey]; try constructor.
  destruct (String.eqb mode ""); [constructor |].
  destruct (parsePacket open msg mode nonce key) as [nonce' result] eqn:Hparse.
  pose proof (Parsed open msg s ssrc stream mode nonce key nonce' result) as Hout.
  rewrite Hget in Hout.
  specialize (Hout Hread Hsub (mk_is_Some _ _ eq_refl) Hcd Hparse).
  destruct result as [[packet |] | e]; exact Hout.
Qed.

(** A decode failure destroys the stream subscribed to the datagram's
    source id, with an error. *)
Lemma onUdpMessage_decode_failure
    (msg : Buffer.t) (s : VoiceReceiver) (ssrc : Z) (stream : nat)
    (mode : string) (nonce key nonce' : Buffer.t) :
  Buffer.readUInt32BE msg 8 = Normal ssrc ->
  subscriptions s !! ssrc = Some stream ->
  is_Some (SSRCMap.get (TargetSSRC ssrc) (ssrcMap s)) ->
  connectionData s
  = {| encryptionMode := Some mode; nonceBuffer := Some nonce; secretKey := Some key |} ->
  mode <> "" ->
  parsePacket open msg mode nonce key = (nonce', Normal None) ->
  onUdpMessage open msg s
  = (withStore (alter (destroy FailedToParsePacket) stream (store s))
       (withNonceBuffer nonce' s),
     Normal tt).
Proof.
  intros Hread Hsub [userData Hget] Hcd Hmode Hparse. unfold onUdpMessage.
  rewrite Hread, Hsub, Hget, Hcd. cbn [encryptionMode nonceBuffer secretKey].
  rewrite Hparse.
  destruct (String.eqb_spec mode ""); [contradiction |].
  destruct (Z.leb_spec (Buffer.length msg) 8) as [Hshort | _]; [| done].
  apply readUInt32BE_length in Hread. lia.
Qed.

(** A datagram changes neither the registry, nor the subscriptions, nor
    the cipher mode and key, nor the number of streams. *)
Lemma onUdpMessage_routing (msg : Buffer.t) (s : VoiceReceiver) :
  let s' := fst (onUdpMessage open msg s) in
  ssrcMap s' = ssrcMap s
  /\ subscriptions s' = subscriptions s
  /\ encryptionMode (connectionData s') = encryptionMode (connectionData s)
  /\ secretKey (connectionData s') = secretKey (connectionData s)
  /\ length (store s') = length (store s).
Proof.
  cbn zeta. destruct (onUdpMessage_outcome msg s) as [| | ? ? ? ? ? ? result];
    [done | done |].
  destruct result as [[packet |] | e]; cbn; rewrite ?length_alter; done.
Qed.

(** A datagram changes at most the stream subscribed to its source id,
    and no stream's 'close' handlers. *)
Lemma onUdpMessage_store (msg : Buffer.t) (s : VoiceReceiver) (r : nat) :
  let s' := fst (onUdpMessage open msg s) in
  (closeListeners <$> store s' !! r) = (closeListeners <$> store s !! r)
  /\ (store s' !! r = store s !! r
      \/ exists ssrc, Buffer.readUInt32BE msg 8 = Normal ssrc
                      /\ subscriptions s !! ssrc = Some r).
Proof.
  cbn zeta.
  destruct (onUdpMessage_outcome msg s) as [| | ssrc stream ? ? ? ? result Hread Hsub];
    [auto | auto |].
  destruct (decide (r = stream)) as [-> | Hne].
  - split; [| right; eauto].
    destruct result as [[packet |] | e]; cbn; [| | done];
      rewrite list_lookup_alter_eq; destruct (store s !! stream); cbn;
      now rewrite ?push_closeListeners, ?destroy_closeListeners.
  - destruct result as [[packet |] | e]; cbn;
      rewrite ?list_lookup_alter_ne by done; auto.
Qed.

Lemma runDatagrams_cons (msg : Buffer.t) (msgs : list Buffer.t) (s : VoiceReceiver) :
  runDatagrams open (msg :: msgs) s = runDatagrams open msgs (fst (onUdpMessage open msg s)).
Proof. reflexivity. Qed.

Lemma runDatagrams_routing (msgs : list Buffer.t) (s : VoiceReceiver) :
  ssrcMap (runDatagrams open msgs s) = ssrcMap s
  /\ subscriptions (runDatagrams open msgs s) = subscriptions s.
Proof.
  revert s. induction msgs as [| msg msgs IH]; intros s; [done |].
  rewrite runDatagrams_cons. destruct (IH (fst (onUdpMessage open msg s))) as [-> ->].
  destruct (onUdpMessage_routing msg s) as (-> & -> & _). done.
Qed.

(** *** Well-formed receivers *)

Lemma wellFormed_new : wellFormed newVoiceReceiver.
Proof. intros ssrc stream Hsub. cbn in Hsub. now rewrite lookup_empty in Hsub. Qed.

Lemma wellFormed_onWsPacket (packet : WsPacket) (s : VoiceReceiver) :
  wellFormed s -> wellFormed (onWsPacket packet s).
Proof.
  intros Hwf. unfold onWsPacket. repeat case_match; exact Hwf.
Qed.

Lemma wellFormed_withConnectionData (c : ConnectionData) (s : VoiceReceiver) :
  wellFormed s -> wellFormed (withConnectionData c s).
Proof. intros Hwf. exact Hwf. Qed.

Lemma wellFormed_onUdpMessage (msg : Buffer.t) (s : VoiceReceiver) :
  wellFormed s -> wellFormed (fst (onUdpMessage open msg s)).
Proof.
  intros Hwf ssrc stream Hsub.
  destruct (onUdpMessage_routing msg s) as (_ & Hsubs & _).
  rewrite Hsubs in Hsub. destruct (Hwf ssrc stream Hsub) as (st & Hst & Hin).
  destruct (onUdpMessage_store msg s stream) as [Hlisteners _].
  rewrite Hst in Hlisteners. cbn in Hlisteners.
  destruct (store (fst (onUdpMessage open msg s)) !! stream) as [st' |]; [| done].
  injection Hlisteners as Heq. exists st'. now rewrite Heq.
Qed.

Lemma wellFormed_runDatagrams (msgs : list Buffer.t) (s : VoiceReceiver) :
  wellFormed s -> wellFormed (runDatagrams open msgs s).
Proof.
  revert s. induction msgs as [| msg msgs IH]; intros s Hwf; [done |].
  rewrite runDatagrams_cons. apply IH. now apply wellFormed_onUdpMessage.
Qed.

End ReceiverFacts.

(** ** [subscribe] and the 'close' notification *)

(** The source id [subscribe] resolves its target to. *)
Lemma subscribe_resolved (target : SubscribeTarget) (s s1 : VoiceReceiver) (stream : nat) :
  subscribe target s = (s1, Normal stream) ->
  exists n,
    SSRCMap.audioSSRC <$> SSRCMap.get target (ssrcMap s) = Some n
    /\ n <> 0
    /\ ssrcMap s1 = ssrcMap s
    /\ subscriptions s1 !! n = Some stream
    /\ (forall k, k <> n -> subscriptions s1 !! k = subscriptions s !! k)
    /\ (subscriptions s !! n = None -> store s !! stream = None).
Proof.
  unfold subscribe.
  destruct (SSRCMap.audioSSRC <$> SSRCMap.get target (ssrcMap s)) as [n |];
    cbn [falsy]; [| discriminate].
  destruct (Z.eqb_spec n 0) as [| Hn]; [discriminate |].
  destruct (subscriptions s !! n) as [existing |] eqn:Hsub.
  - intros [= <- <-]. exists n. rewrite Hsub. repeat split; congruence.
  - intros [= <- <-]. exists n. cbn. repeat split; try done.
    + apply lookup_insert_eq.
    + intros k Hk. now rewrite lookup_insert_ne.
    + intros _. now apply lookup_ge_None.
Qed.

(** A subscription that is already registered is returned as it is. *)
Lemma subscribe_existing (target : SubscribeTarget) (s : VoiceReceiver) (n : Z) (stream : nat) :
  SSRCMap.audioSSRC <$> SSRCMap.get target (ssrcMap s) = Some n ->
  n <> 0 ->
  subscriptions s !! n = Some stream ->
  subscribe target s = (s, Normal stream).
Proof.
  intros Hres Hn Hsub. unfold subscribe. rewrite Hres. cbn [falsy].
  destruct (Z.eqb_spec n 0); [done |]. now rewrite Hsub.
Qed.

(** [subscribe] throws exactly on a falsy source id. *)
Lemma subscribe_throws (target : SubscribeTarget) (s : VoiceReceiver) :
  falsy (SSRCMap.audioSSRC <$> SSRCMap.get target (ssrcMap s)) = true ->
  subscribe target s = (s, Throw (NoKnownSSRC target)).
Proof. intros Hfalsy. unfold subscribe. now rewrite Hfalsy. Qed.

Lemma subscribe_returns (target : SubscribeTarget) (s : VoiceReceiver) :
  falsy (SSRCMap.audioSSRC <$> SSRCMap.get target (ssrcMap s)) = false ->
  exists stream, snd (subscribe target s) = Normal stream.
Proof.
  intros Hfalsy. unfold subscribe. rewrite Hfalsy.
  destruct (SSRCMap.audioSSRC <$> SSRCMap.get target (ssrcMap s)) as [n |];
    [| discriminate].
  destruct (subscriptions s !! n); cbn; eauto.
Qed.

Lemma wellFormed_subscribe (target : SubscribeTarget) (s : VoiceReceiver) :
  wellFormed s -> wellFormed (fst (subscribe target s)).
Proof.
  intros Hwf. unfold subscribe.
  destruct (falsy _); [exact Hwf |].
  destruct (SSRCMap.audioSSRC <$> SSRCMap.get target (ssrcMap s)) as [n |];
    [| exact Hwf].
  destruct (subscriptions s !! n) as [existing |] eqn:Hsub; [exact Hwf |].
  intros ssrc stream. cbn.
  destruct (decide (ssrc = n)) as [-> | Hne].
  - rewrite lookup_insert_eq. intros [= <-].
    exists (onceClose n newAudioReceiveStream). split.
    + now rewrite lookup_app_r, Nat.sub_diag by lia.
    + cbn. apply elem_of_cons. auto.
  - rewrite lookup_insert_ne by done. intros Hsub'.
    destruct (Hwf ssrc stream Hsub') as (st & Hst & Hin).
    exists st. split; [| done]. now apply lookup_app_l_Some.
Qed.

(** The 'close' notification of the stream subscribed to [ssrc] removes
    the subscription of [ssrc]. *)
Lemma emitClose_unsubscribes (s : VoiceReceiver) (ssrc : Z) (stream : nat) :
  wellFormed s ->
  subscriptions s !! ssrc = Some stream ->
  subscriptions (emitClose stream s) !! ssrc = None.
Proof.
  intros Hwf Hsub. destruct (Hwf ssrc stream Hsub) as (st & Hst & Hin).
  unfold emitClose. rewrite Hst. cbn.
  rewrite lookup_foldl_delete. now rewrite decide_True.
Qed.

Lemma wellFormed_emitClose (s : VoiceReceiver) (stream : nat) :
  wellFormed s -> wellFormed (emitClose stream s).
Proof.
  intros Hwf. unfold emitClose.
  destruct (store s !! stream) as [st |] eqn:Hst; [| exact Hwf].
  intros ssrc r. cbn. rewrite lookup_foldl_delete.
  case_decide as Hin; [discriminate |]. intros Hsub.
  destruct (Hwf ssrc r Hsub) as (st' & Hst' & Hin').
  destruct (decide (r = stream)) as [-> | Hne].
  - congruence.
  - exists st'. now rewrite list_lookup_insert_ne.
Qed.

(** Every state a receiver can be in is well formed. *)
Lemma reachable_wellFormed open (s : VoiceReceiver) :
  reachable open s -> wellFormed s.
Proof.
  induction 1.
  - apply wellFormed_new.
  - now apply wellFormed_onWsPacket.
  - now apply wellFormed_onUdpMessage.
  - now apply wellFormed_subscribe.
  - now apply wellFormed_withConnectionData.
  - now apply wellFormed_emitClose.
Qed.

(** ** The datagram handler *)

Section DatagramHandler.

Variable open : Buffer.t -> Buffer.t -> Buffer.t -> option Buffer.t.

(** A datagram for a source id without a subscription is dropped. *)
Lemma onUdpMessage_unsubscribed (msg : Buffer.t) (s : VoiceReceiver) (ssrc : Z) :
  Buffer.readUInt32BE msg 8 = Normal ssrc ->
  subscriptions s !! ssrc = None ->
  onUdpMessage open msg s = (s, Normal tt).
Proof.
  intros Hread Hsub. unfold onUdpMessage.
  rewrite Hread, Hsub. now destruct (Buffer.length msg <=? 8).
Qed.

(** Under each of the spec's drop conditions the receiver is left as it
    is; the handler returns normally unless the datagram has 9 to 11
    bytes, too few for the source id that the code goes on to read. *)
Lemma onUdpMessage_silent_drop (msg : Buffer.t) (s : VoiceReceiver) :
  dropCondition msg s ->
  fst (onUdpMessage open msg s) = s
  /\ (Buffer.length msg <= 8 \/ 12 <= Buffer.length msg ->
      snd (onUdpMessage open msg s) = Normal tt).
Proof.
  intros Hdrop. unfold onUdpMessage.
  destruct (Z.leb_spec (Buffer.length msg) 8) as [Hshort | Hlong]; [done |].
  destruct (Buffer.readUInt32BE msg 8) as [ssrc | e] eqn:Hread.
  2: { split; [done |]. intros [Hle | Hge]; [lia |].
       destruct (readUInt32BE_in_range msg 8) as [? Hsome]; [lia | lia | congruence]. }
  destruct (subscriptions s !! ssrc) as [stream |] eqn:Hsub; [| done].
  destruct (SSRCMap.get (TargetSSRC ssrc) (ssrcMap s)) as [userData |] eqn:Hget; [| done].
  destruct Hdrop as [Hle | [(x & Hx & Hnone) | [(x & Hx & Hnone) | Hinc]]];
    [lia | congruence | congruence |].
  destruct Hinc as [-> | [-> | ->]]; repeat case_match; done.
Qed.

End DatagramHandler.

(** C5. A 10-byte datagram meets the drop conditions at a new receiver
    (no subscription, no binding, no cipher context), and the receiver is
    left as it is; but the handler does not return: reading the source id
    at offset 8 throws. *)
Theorem onUdpMessage_ten_bytes_throws :
  dropCondition (take 10 exampleHeader) newVoiceReceiver
  /\ forall open,
       onUdpMessage open (take 10 exampleHeader) newVoiceReceiver
       = (newVoiceReceiver, Throw ERR_OUT_OF_RANGE).
Proof.
  split; [| reflexivity].
  do 3 right. left. reflexivity.
Qed.

(** C3. A 12-byte datagram in suffix mode, for a subscribed and identified
    source id: the copy of the nonce throws out of the handler, and the
    stream is not destroyed. *)
Theorem onUdpMessage_suffix_short_throws :
  forall open,
    let s := exampleReceiver "xsalsa20_poly1305_suffix" in
    onUdpMessage open exampleHeader s = (s, Throw ERR_OUT_OF_RANGE)
    /\ destroyed <$> store s !! 0%nat = Some None.
Proof. intros open. split; reflexivity. Qed.

(** C4. Two datagrams for a subscribed and identified source id whose
    exception escapes the handler: one of 9 bytes, and a lite-mode one
    whose decrypted payload ends with its extension block. The stream is
    not destroyed. *)
Theorem onUdpMessage_exception_escapes :
  let s := exampleReceiver "xsalsa20_poly1305_lite" in
  let overrun := liteDatagram [xbe; xde; x00; x01; x00] in
  (forall open, onUdpMessage open (take 9 exampleHeader) s = (s, Throw ERR_OUT_OF_RANGE))
  /\ snd (onUdpMessage exampleOpen overrun s) = Throw ERR_OUT_OF_RANGE
  /\ store (fst (onUdpMessage exampleOpen overrun s)) = store s.
Proof. cbn zeta. split; [| split]; reflexivity. Qed.

(** ** Subscriptions *)

(** C6 (amended). [subscribe] throws, with the error that names the
    target, exactly when the registry has no binding for the target or
    the binding's audio source id is 0; it returns a channel exactly when
    the registry resolves the target to a binding whose audio source id
    is not 0. *)
Theorem subscribe_throws_iff_no_nonzero_ssrc (target : SubscribeTarget) (s : VoiceReceiver) :
  (snd (subscribe target s) = Throw (NoKnownSSRC target)
   <-> SSRCMap.get target (ssrcMap s) = None
       \/ exists data, SSRCMap.get target (ssrcMap s) = Some data
                       /\ SSRCMap.audioSSRC data = 0)
  /\ ((exists stream, snd (subscribe target s) = Normal stream)
      <-> exists data, SSRCMap.get target (ssrcMap s) = Some data
                       /\ SSRCMap.audioSSRC data <> 0).
Proof.
  destruct (falsy (SSRCMap.audioSSRC <$> SSRCMap.get target (ssrcMap s))) eqn:Hfalsy.
  - rewrite (subscribe_throws target s Hfalsy). cbn [snd].
    destruct (SSRCMap.get target (ssrcMap s)) as [data |]; cbn in Hfalsy.
    + apply Z.eqb_eq in Hfalsy. split; split; try done.
      * intros _. right. eauto.
      * intros [? [=]].
      * intros (? & [= <-] & ?). done.
    + split; split; try done; [auto | intros [? [=]] | intros (? & [=] & _)].
  - destruct (subscribe_returns target s Hfalsy) as [stream Hstream].
    rewrite Hstream.
    destruct (SSRCMap.get target (ssrcMap s)) as [data |]; cbn in Hfalsy; [| done].
    apply Z.eqb_neq in Hfalsy. split; split; try done.
    + intros [[=] | (? & [= <-] & ?)]. done.
    + intros _. eauto.
    + intros _. eauto.
Qed.

(** C6, as stated, fails for a participant announced with source id 0:
    the registry resolves "alice" to her binding and [subscribe] throws. *)
Lemma subscribe_source_id_zero_counterexample :
  ~ subscribeAsStated (TargetUser "alice") (onWsPacket (speaking "alice" 0) newVoiceReceiver).
Proof.
  intros [_ Hreturns].
  destruct Hreturns as [stream Hstream]; [| discriminate].
  now exists {| SSRCMap.userId := "alice"; SSRCMap.audioSSRC := 0; SSRCMap.videoSSRC := None |}.
Qed.

(** C7. When [subscribe] returns a channel for a target, a second call for
    the same target, after any datagrams and before the channel closes,
    returns the same stream (the same address in the store) and changes
    nothing; and the subscriptions are those before the first call with
    the one entry of the target's source id, so at most one entry more. *)
Theorem subscribe_twice_same_channel
    (open : Buffer.t -> Buffer.t -> Buffer.t -> option Buffer.t)
    (target : SubscribeTarget) (s s1 : VoiceReceiver) (stream : nat)
    (msgs : list Buffer.t) :
  subscribe target s = (s1, Normal stream) ->
  let s2 := runDatagrams open msgs s1 in
  subscribe target s2 = (s2, Normal stream)
  /\ exists n,
       SSRCMap.audioSSRC <$> SSRCMap.get target (ssrcMap s) = Some n
       /\ subscriptions s2 = <[n := stream]> (subscriptions s)
       /\ (size (subscriptions s2) <= S (size (subscriptions s)))%nat.
Proof.
  intros Hfirst s2.
  destruct (subscribe_resolved target s s1 stream Hfirst)
    as (n & Hres & Hn & Hmap & Hsub & Hothers & _).
  destruct (runDatagrams_routing open msgs s1) as [Hmap2 Hsubs2].
  fold s2 in Hmap2, Hsubs2.
  split.
  - apply (subscribe_existing target s2 n stream); [| done |].
    + now rewrite Hmap2, Hmap.
    + now rewrite Hsubs2.
  - exists n. rewrite Hsubs2.
    assert (subscriptions s1 = <[n := stream]> (subscriptions s)) as ->.
    { apply map_eq. intros k. destruct (decide (k = n)) as [-> | Hne].
      - now rewrite lookup_insert_eq.
      - rewrite lookup_insert_ne by done. now apply Hothers. }
    repeat split; [done |].
    rewrite map_size_insert. destruct (subscriptions s !! n); cbn; lia.
Qed.

(** C8. Once the 'close' notification of the stream subscribed to a source
    id has run, the source id has no subscription, also after any further
    datagrams, and a datagram that carries the source id is dropped: the
    handler returns and the receiver is as before. No datagram changes the
    subscriptions or adds a stream to the store. *)
Theorem closed_channel_datagrams_dropped
    (open : Buffer.t -> Buffer.t -> Buffer.t -> option Buffer.t)
    (s : VoiceReceiver) (ssrc : Z) (stream : nat) (msgs : list Buffer.t) (msg : Buffer.t) :
  wellFormed s ->
  subscriptions s !! ssrc = Some stream ->
  Buffer.readUInt32BE msg 8 = Normal ssrc ->
  let closed := runDatagrams open msgs (emitClose stream s) in
  subscriptions closed !! ssrc = None
  /\ onUdpMessage open msg closed = (closed, Normal tt)
  /\ forall (msg' : Buffer.t) (s' : VoiceReceiver),
       subscriptions (fst (onUdpMessage open msg' s')) = subscriptions s'
       /\ length (store (fst (onUdpMessage open msg' s'))) = length (store s').
Proof.
  intros Hwf Hsub Hread closed.
  assert (Hnone : subscriptions closed !! ssrc = None).
  { unfold closed. destruct (runDatagrams_routing open msgs (emitClose stream s)) as [_ ->].
    now apply emitClose_unsubscribes. }
  split; [exact Hnone |]. split.
  - now apply onUdpMessage_unsubscribed with (ssrc := ssrc).
  - intros msg' s'. destruct (onUdpMessage_routing open msg' s') as (_ & ? & _ & _ & ?).
    done.
Qed.

(** ** Signaling *)

(** C9. On a [ClientConnect] packet with a string user id and a numeric
    audio source id, the registry is updated with a binding of the user
    to that audio source id whose video source id is absent when the
    packet's is 0, and the packet's otherwise; the registry then resolves
    the user to this binding. *)
Theorem onWsPacket_clientConnect_video
    (s : VoiceReceiver) (user : string) (audio : Z) (video : option Z) (other : JsValue) :
  let recorded :=
    {| SSRCMap.userId := user;
       SSRCMap.audioSSRC := audio;
       SSRCMap.videoSSRC := match video with
                            | Some 0 => None
                            | Some v => Some v
                            | None => None
                            end |} in
  let s' := onWsPacket (clientConnect user audio video other) s in
  ssrcMap s' = SSRCMap.update recorded (ssrcMap s)
  /\ SSRCMap.get (TargetUser user) (ssrcMap s') = Some recorded
  /\ subscriptions s' = subscriptions s
  /\ store s' = store s.
Proof.
  cbn zeta.
  assert (ssrcMap (onWsPacket (clientConnect user audio video other) s)
          = SSRCMap.update
              {| SSRCMap.userId := user; SSRCMap.audioSSRC := audio;
                 SSRCMap.videoSSRC := match video with
                                      | Some 0 => None
                                      | Some v => Some v
                                      | None => None
                                      end |} (ssrcMap s)) as Hupdate.
  { unfold onWsPacket, clientConnect, field. cbn.
    destruct video as [[| v | v] |]; reflexivity. }
  rewrite Hupdate. repeat split.
  unfold SSRCMap.update, SSRCMap.get. cbn. apply lookup_insert_eq.
Qed.

(** ** Instances *)

(** C2, as stated, fails in suffix mode on a 12-byte datagram: [decrypt]
    throws, so no nonce is written and no span is handed to the primitive. *)
Lemma decrypt_suffix_short_counterexample :
  ~ selectsAsSpecified exampleOpen exampleHeader "xsalsa20_poly1305_suffix"
      (replicate 24 x00) (replicate 32 x00).
Proof. unfold selectsAsSpecified. discriminate. Qed.

(** C2 at a 40-byte lite-mode datagram. *)
Lemma decrypt_selects_witness :
  (trailingNonce (cipherMode "xsalsa20_poly1305_lite")
   <= length (liteDatagram [xbe; xde; x00; x02; x10; xaa; x20; xbb]))%nat
  /\ selectsAsSpecified exampleOpen (liteDatagram [xbe; xde; x00; x02; x10; xaa; x20; xbb])
       "xsalsa20_poly1305_lite" (replicate 24 x00) (replicate 32 x00).
Proof.
  assert (trailingNonce (cipherMode "xsalsa20_poly1305_lite")
          <= length (liteDatagram [xbe; xde; x00; x02; x10; xaa; x20; xbb]))%nat as Hlen
    by (vm_compute; lia).
  split; [exact Hlen |].
  exact (decrypt_selects_nonce_and_span exampleOpen _ _ _ _ Hlen).
Defined.

Lemma wellFormed_exampleReceiver (mode : string) : wellFormed (exampleReceiver mode).
Proof.
  apply wellFormed_withConnectionData, wellFormed_subscribe,
    wellFormed_onWsPacket, wellFormed_new.
Qed.

(** C7 for "alice": subscribed by user id, one datagram handled, then
    subscribed again. *)
Lemma subscribe_twice_witness :
  let s := onWsPacket (speaking "alice" 1234) newVoiceReceiver in
  let s1 := fst (subscribe (TargetUser "alice") s) in
  let s2 := runDatagrams exampleOpen [liteDatagram [xaa; xbb]] s1 in
  subscribe (TargetUser "alice") s = (s1, Normal 0%nat)
  /\ subscribe (TargetUser "alice") s2 = (s2, Normal 0%nat).
Proof.
  intros s s1 s2.
  assert (subscribe (TargetUser "alice") s = (s1, Normal 0%nat)) as Hfirst by reflexivity.
  split; [exact Hfirst |].
  exact (proj1 (subscribe_twice_same_channel exampleOpen (TargetUser "alice") s s1 0%nat
                  [liteDatagram [xaa; xbb]] Hfirst)).
Defined.

(** C8 for "alice": her stream closes, a datagram of hers is handled, and
    the next one is dropped. *)
Lemma closed_channel_witness :
  let s := exampleReceiver "xsalsa20_poly1305_lite" in
  let closed := runDatagrams exampleOpen [liteDatagram [xaa; xbb]] (emitClose 0 s) in
  subscriptions s !! 1234 = Some 0%nat
  /\ Buffer.readUInt32BE (liteDatagram [xcc]) 8 = Normal 1234
  /\ subscriptions closed !! 1234 = None
  /\ onUdpMessage exampleOpen (liteDatagram [xcc]) closed = (closed, Normal tt).
Proof.
  intros s closed.
  assert (subscriptions s !! 1234 = Some 0%nat) as Hsub by reflexivity.
  assert (Buffer.readUInt32BE (liteDatagram [xcc]) 8 = Normal 1234) as Hread by reflexivity.
  split; [exact Hsub |]. split; [exact Hread |].
  destruct (closed_channel_datagrams_dropped exampleOpen s 1234 0%nat
              [liteDatagram [xaa; xbb]] (liteDatagram [xcc])
              (wellFormed_exampleReceiver _) Hsub Hread) as (Hnone & Hdrop & _).
  split; [exact Hnone | exact Hdrop].
Defined.

(** ** Further properties of the decoder *)

Lemma u8_inj (a b : byte) : Buffer.u8 a = Buffer.u8 b -> a = b.
Proof.
  unfold Buffer.u8. intros H%N2Z.inj.
  assert (Byte.of_N (Byte.to_N a) = Byte.of_N (Byte.to_N b)) as Heq by now rewrite H.
  rewrite !Byte.of_to_N in Heq. now injection Heq.
Qed.

Lemma u8_range (b : byte) : 0 <= Buffer.u8 b < 256.
Proof.
  unfold Buffer.u8. pose proof (Byte.to_N_bounded b) as Hb. lia.
Qed.

(** The test that opens the stripping of [parsePacket] (line 107). *)
Lemma marker_test (packet : Buffer.t) :
  strictEq (Buffer.get packet 0) 0xbe && strictEq (Buffer.get packet 1) 0xde
    && (4 <? Buffer.length packet) = true
  <-> hasMarker packet /\ 4 < Buffer.length packet.
Proof.
  rewrite !andb_true_iff, Z.ltb_lt. unfold hasMarker, strictEq, Buffer.get.
  split.
  - intros [[H0 H1] Hlen]. split; [| exact Hlen].
    destruct packet as [| a [| b rest]]; cbn in H0, H1; try discriminate.
    apply Z.eqb_eq in H0, H1.
    apply (u8_inj a xbe) in H0. apply (u8_inj b xde) in H1. subst. eauto.
  - intros [[rest ->] Hlen]. cbn. auto.
Qed.

Lemma readUInt8_Normal (b : Buffer.t) (offset v : Z) :
  Buffer.readUInt8 b offset = Normal v -> 0 <= offset < Buffer.length b /\ 0 <= v < 256.
Proof.
  unfold Buffer.readUInt8, Buffer.get. rewrite buffer_length_nat.
  destruct (Z.ltb_spec offset 0); [discriminate |].
  destruct (b !! Z.to_nat offset) as [x |] eqn:Hx; [| discriminate].
  intros [= <-]. apply lookup_lt_Some in Hx. split; [lia | apply u8_range].
Qed.

Lemma readUInt8_Throw (b : Buffer.t) (offset : Z) (e : JsError) :
  Buffer.readUInt8 b offset = Throw e -> offset < 0 \/ Buffer.length b <= offset.
Proof.
  unfold Buffer.readUInt8, Buffer.get. rewrite buffer_length_nat.
  destruct (Z.ltb_spec offset 0); [auto |].
  destruct (b !! Z.to_nat offset) as [x |] eqn:Hx; [discriminate |].
  intros _. apply lookup_ge_None in Hx. lia.
Qed.

Lemma readUInt16BE_in_range (b : Buffer.t) (offset : Z) :
  0 <= offset -> offset + 2 <= Buffer.length b ->
  exists v, Buffer.readUInt16BE b offset = Normal v /\ 0 <= v < 65536.
Proof.
  intros Hoff Hlen. rewrite buffer_length_nat in Hlen.
  unfold Buffer.readUInt16BE, Buffer.get.
  destruct (Z.ltb_spec offset 0); [lia |].
  destruct (Z.ltb_spec (offset + 1) 0); [lia |].
  destruct (b !! Z.to_nat offset) as [hi |] eqn:Hhi; [| apply lookup_ge_None in Hhi; lia].
  destruct (b !! Z.to_nat (offset + 1)) as [lo |] eqn:Hlo;
    [| apply lookup_ge_None in Hlo; lia].
  eexists. split; [reflexivity |].
  pose proof (u8_range hi). pose proof (u8_range lo). lia.
Qed.

(** What the stripping does to a payload with the marker: it reads the
    count, walks the elements, and reads the byte at the final offset. *)
Lemma stripHeaderExtensions_marker (packet : Buffer.t) :
  hasMarker packet -> 4 < Buffer.length packet ->
  exists count,
    Buffer.readUInt16BE packet 2 = Normal count
    /\ stripHeaderExtensions packet
       = (let offset := skipElements packet (Z.to_nat count) 4 in
          match Buffer.readUInt8 packet offset with
          | Normal byte =>
              Normal (Buffer.slice packet
                        (if (byte =? 0) || (byte =? 2) then offset + 1 else offset) None)
          | Throw e => Throw e
          end).
Proof.
  intros Hmarker Hlen.
  destruct (readUInt16BE_in_range packet 2) as (count & Hcount & _); [lia | lia |].
  exists count. split; [exact Hcount |].
  unfold stripHeaderExtensions.
  rewrite (proj2 (marker_test packet) (conj Hmarker Hlen)), Hcount. cbn [cbind].
  now destruct (Buffer.readUInt8 _ _).
Qed.

Lemma stripHeaderExtensions_plain (packet : Buffer.t) :
  ~ (hasMarker packet /\ 4 < Buffer.length packet) ->
  stripHeaderExtensions packet = Normal packet.
Proof.
  intros Hno. unfold stripHeaderExtensions.
  destruct (_ && _ && _) eqn:Htest; [| done].
  now apply marker_test in Htest.
Qed.

Lemma classic_marker (packet : Buffer.t) :
  (hasMarker packet /\ 4 < Buffer.length packet)
  \/ ~ (hasMarker packet /\ 4 < Buffer.length packet).
Proof.
  destruct (strictEq (Buffer.get packet 0) 0xbe && strictEq (Buffer.get packet 1) 0xde
            && (4 <? Buffer.length packet)) eqn:Htest.
  - left. now apply marker_test.
  - right. intros Hyes%marker_test. congruence.
Qed.

(** X1. [decrypt] throws exactly when the datagram is shorter than the
    mode's trailing nonce (4 bytes in lite mode, 24 in suffix mode, never
    in normal mode), and then the nonce buffer is not written. *)
Theorem decrypt_throws_iff_short
    (open : Buffer.t -> Buffer.t -> Buffer.t -> option Buffer.t)
    (buffer : Buffer.t) (mode : string) (nonce key : Buffer.t) :
  (throws (snd (decrypt open buffer mode nonce key))
   <-> (length buffer < trailingNonce (cipherMode mode))%nat)
  /\ ((length buffer < trailingNonce (cipherMode mode))%nat ->
      decrypt open buffer mode nonce key = (nonce, Throw ERR_OUT_OF_RANGE)).
Proof.
  split; [| apply decrypt_trailing_short].
  destruct (decide (length buffer < trailingNonce (cipherMode mode))%nat) as [Hshort | Hlong].
  - rewrite (decrypt_trailing_short open buffer mode nonce key Hshort). cbn. tauto.
  - pose proof (decrypt_selects open buffer mode nonce key) as Hsel.
    unfold selectsAsSpecified in Hsel. rewrite Hsel by lia. cbn. tauto.
Qed.

(** X2. [decrypt] and [parsePacket] write the nonce scratch buffer in
    place: whatever the datagram, the mode and the outcome, the buffer has
    the length it had. *)
Theorem parsePacket_keeps_nonce_length
    (open : Buffer.t -> Buffer.t -> Buffer.t -> option Buffer.t)
    (buffer : Buffer.t) (mode : string) (nonce key : Buffer.t) :
  length (fst (decrypt open buffer mode nonce key)) = length nonce
  /\ length (fst (parsePacket open buffer mode nonce key)) = length nonce.
Proof.
  assert (length (fst (decrypt open buffer mode nonce key)) = length nonce) as Hdec.
  { destruct (decide (length buffer < trailingNonce (cipherMode mode))%nat) as [Hshort | Hlong].
    - now rewrite (decrypt_trailing_short open buffer mode nonce key Hshort).
    - pose proof (decrypt_selects open buffer mode nonce key) as Hsel.
      unfold selectsAsSpecified in Hsel. rewrite Hsel by lia.
      apply writtenAtStart_length. }
  split; [exact Hdec |].
  unfold parsePacket.
  destruct (decrypt open buffer mode nonce key) as [nonce' [[packet |] | e]]; exact Hdec.
Qed.

(** X3. What [parsePacket]'s stripping returns is the payload itself, when
    it has no marker or at most 4 bytes, or else the payload without its
    first [n] bytes for some [n] from 4 to the payload's length: it never
    returns bytes that are not a tail of the payload. *)
Theorem stripHeaderExtensions_returns_tail (packet stripped : Buffer.t) :
  stripHeaderExtensions packet = Normal stripped ->
  (stripped = packet /\ ~ (hasMarker packet /\ 4 < Buffer.length packet))
  \/ (hasMarker packet
      /\ exists n, (4 <= n <= length packet)%nat /\ stripped = drop n packet).
Proof.
  intros Hstrip.
  destruct (classic_marker packet) as [[Hmarker Hlen] | Hno].
  - right. split; [exact Hmarker |].
    destruct (stripHeaderExtensions_marker packet Hmarker Hlen) as (count & _ & Heq).
    rewrite Heq in Hstrip. cbn zeta in Hstrip.
    pose proof (skipElements_ge packet (Z.to_nat count) 4) as Hge.
    set (offset := skipElements packet (Z.to_nat count) 4) in *.
    destruct (Buffer.readUInt8 packet offset) as [byte | e] eqn:Hread; [| discriminate].
    apply readUInt8_Normal in Hread as [Hoff _]. rewrite buffer_length_nat in Hoff.
    injection Hstrip as <-.
    set (final := if (byte =? 0) || (byte =? 2) then offset + 1 else offset).
    assert (4 <= final <= Z.of_nat (length packet)) as Hfinal.
    { unfold final. destruct ((byte =? 0) || (byte =? 2)); lia. }
    exists (Z.to_nat final). split; [lia |].
    rewrite <- (slice_to_end packet (Z.to_nat final)). f_equal. lia.
  - left. split; [| exact Hno].
    rewrite (stripHeaderExtensions_plain packet Hno) in Hstrip. now injection Hstrip.
Qed.

(** X4. The stripping throws exactly when the payload has the marker and
    more than 4 bytes and the offset after the counted elements is at or
    past the payload's end: the byte read there is out of range. *)
Theorem stripHeaderExtensions_throws_iff (packet : Buffer.t) :
  throws (stripHeaderExtensions packet)
  <-> hasMarker packet
      /\ 4 < Buffer.length packet
      /\ exists count,
           Buffer.readUInt16BE packet 2 = Normal count
           /\ Buffer.length packet <= skipElements packet (Z.to_nat count) 4.
Proof.
  split.
  - intros Hthrows.
    destruct (classic_marker packet) as [[Hmarker Hlen] | Hno].
    + split; [exact Hmarker |]. split; [exact Hlen |].
      destruct (stripHeaderExtensions_marker packet Hmarker Hlen) as (count & Hcount & Heq).
      exists count. split; [exact Hcount |].
      rewrite Heq in Hthrows. cbn zeta in Hthrows.
      pose proof (skipElements_ge packet (Z.to_nat count) 4) as Hge.
      destruct (Buffer.readUInt8 packet _) as [byte | e] eqn:Hread; [done |].
      apply readUInt8_Throw in Hread. lia.
    + now rewrite (stripHeaderExtensions_plain packet Hno) in Hthrows.
  - intros (Hmarker & Hlen & count & Hcount & Hpast).
    destruct (stripHeaderExtensions_marker packet Hmarker Hlen) as (count' & Hcount' & Heq).
    rewrite Hcount in Hcount'. injection Hcount' as <-.
    rewrite Heq. cbn zeta.
    destruct (Buffer.readUInt8 packet _) as [byte | e] eqn:Hread; [| done].
    apply readUInt8_Normal in Hread. lia.
Qed.

(** X5. A payload whose extension block counts no elements loses its
    4-byte extension header, and the byte after it when that is [0x00] or
    [0x02]. *)
Theorem stripHeaderExtensions_no_elements (next : byte) (rest : Buffer.t) :
  stripHeaderExtensions ([xbe; xde; x00; x00] ++ next :: rest)
  = Normal (if (Buffer.u8 next =? 0) || (Buffer.u8 next =? 2) then rest else next :: rest).
Proof.
  set (packet := [xbe; xde; x00; x00] ++ next :: rest).
  assert (hasMarker packet) as Hmarker by (unfold hasMarker, packet; cbn; eauto).
  assert (4 < Buffer.length packet) as Hlen.
  { unfold packet. rewrite buffer_length_nat. cbn [app length]. lia. }
  destruct (stripHeaderExtensions_marker packet Hmarker Hlen) as (count & Hcount & Heq).
  assert (Buffer.readUInt16BE packet 2 = Normal 0) as Hzero by reflexivity.
  rewrite Hzero in Hcount. injection Hcount as <-.
  rewrite Heq. cbn zeta. change (skipElements packet (Z.to_nat 0) 4) with 4.
  change (Buffer.readUInt8 packet 4) with (Normal (A := Z) (Buffer.u8 next)).
  cbv beta iota.
  destruct ((Buffer.u8 next =? 0) || (Buffer.u8 next =? 2)).
  - exact (f_equal Normal (slice_to_end packet 5)).
  - exact (f_equal Normal (slice_to_end packet 4)).
Qed.

(** X6. For a datagram that holds its mode's trailing nonce: when the
    primitive opens the ciphertext span to a payload without the marker
    (or of at most 4 bytes), [parsePacket] returns that payload unchanged;
    when the primitive fails, [parsePacket] returns nothing; in both cases
    the nonce buffer holds the datagram's nonce bytes. *)
Theorem parsePacket_plain_or_failed
    (open : Buffer.t -> Buffer.t -> Buffer.t -> option Buffer.t)
    (buffer : Buffer.t) (mode : string) (nonce key : Buffer.t) :
  (trailingNonce (cipherMode mode) <= length buffer)%nat ->
  let m := cipherMode mode in
  let nonce' := writtenAtStart (nonceBytes m buffer) nonce in
  let opened := open (drop 12 (take (ciphertextEnd m buffer) buffer)) nonce' key in
  (opened = None -> parsePacket open buffer mode nonce key = (nonce', Normal None))
  /\ (forall packet,
        opened = Some packet ->
        ~ (hasMarker packet /\ 4 < Buffer.length packet) ->
        parsePacket open buffer mode nonce key = (nonce', Normal (Some packet))).
Proof.
  intros Hlen m nonce' opened.
  pose proof (decrypt_selects open buffer mode nonce key Hlen) as Hsel.
  unfold selectsAsSpecified in Hsel. fold m nonce' opened in Hsel.
  unfold parsePacket. rewrite Hsel. split.
  - now intros ->.
  - intros packet -> Hplain. now rewrite (stripHeaderExtensions_plain packet Hplain).
Qed.

(** ** Further properties of the datagram handler *)

Section DatagramExtras.

Variable open : Buffer.t -> Buffer.t -> Buffer.t -> option Buffer.t.

(** A datagram for a subscribed and identified source id, with the cipher
    context complete, is handed to [parsePacket]. *)
Lemma onUdpMessage_routed
    (msg : Buffer.t) (s : VoiceReceiver) (ssrc : Z) (stream : nat)
    (mode : string) (nonce key : Buffer.t) :
  Buffer.readUInt32BE msg 8 = Normal ssrc ->
  subscriptions s !! ssrc = Some stream ->
  is_Some (SSRCMap.get (TargetSSRC ssrc) (ssrcMap s)) ->
  connectionData s
  = {| encryptionMode := Some mode; nonceBuffer := Some nonce; secretKey := Some key |} ->
  mode <> "" ->
  onUdpMessage open msg s
  = (let '(nonce', result) := parsePacket open msg mode nonce key in
     match result with
     | Throw e => (withNonceBuffer nonce' s, Throw e)
     | Normal (Some packet) =>
         (withStore (alter (push packet) stream (store s)) (withNonceBuffer nonce' s),
          Normal tt)
     | Normal None =>
         (withStore (alter (destroy FailedToParsePacket) stream (store s))
            (withNonceBuffer nonce' s),
          Normal tt)
     end).
Proof.
  intros Hread Hsub [userData Hget] Hcd Hmode. unfold onUdpMessage.
  rewrite Hread, Hsub, Hget, Hcd. cbn [encryptionMode nonceBuffer secretKey].
  destruct (String.eqb_spec mode ""); [contradiction |].
  destruct (Z.leb_spec (Buffer.length msg) 8) as [Hshort | _].
  { apply readUInt32BE_length in Hread. lia. }
  destruct (parsePacket open msg mode nonce key) as [nonce' [[packet |] | e]]; reflexivity.
Qed.

(** One datagram leaves the frames of every stream in place, adding at
    most one at the end, and leaves a destroyed stream as it is. *)
Lemma onUdpMessage_append_only (msg : Buffer.t) (s : VoiceReceiver) (r : nat)
    (st : AudioReceiveStream) :
  store s !! r = Some st ->
  exists st', store (fst (onUdpMessage open msg s)) !! r = Some st'
              /\ frames st `prefix_of` frames st'
              /\ (is_Some (destroyed st) -> st' = st).
Proof.
  intros Hst.
  destruct (onUdpMessage_outcome open msg s) as [| | ssrc stream ? ? ? ? result];
    [exists st; done | exists st; done |].
  destruct (decide (r = stream)) as [-> | Hne].
  - destruct result as [[packet |] | e]; cbn.
    + rewrite list_lookup_alter_eq, Hst. cbn. eexists. split; [reflexivity |].
      unfold push. destruct (destroyed st) eqn:Hd; cbn.
      * split; done.
      * split; [now apply prefix_app_r | now intros [? [=]]].
    + rewrite list_lookup_alter_eq, Hst. cbn. eexists. split; [reflexivity |].
      unfold destroy. destruct (destroyed st) eqn:Hd; cbn.
      * split; done.
      * split; [done | now intros [? [=]]].
    + exists st. done.
  - exists st. destruct result as [[packet |] | e]; cbn;
      rewrite ?list_lookup_alter_ne by done; done.
Qed.

End DatagramExtras.

(** X7. Whatever the datagram and whether the handler returns or throws,
    [onUdpMessage] changes neither the registry, nor the subscriptions,
    nor the cipher mode and key, nor the number of streams, nor any
    stream other than the one subscribed to the datagram's source id. *)
Theorem onUdpMessage_changes_one_stream
    (open : Buffer.t -> Buffer.t -> Buffer.t -> option Buffer.t)
    (msg : Buffer.t) (s : VoiceReceiver) :
  let s' := fst (onUdpMessage open msg s) in
  ssrcMap s' = ssrcMap s
  /\ subscriptions s' = subscriptions s
  /\ encryptionMode (connectionData s') = encryptionMode (connectionData s)
  /\ secretKey (connectionData s') = secretKey (connectionData s)
  /\ length (store s') = length (store s)
  /\ forall r : nat,
       (forall ssrc, Buffer.readUInt32BE msg 8 = Normal ssrc ->
                     subscriptions s !! ssrc <> Some r) ->
       store s' !! r = store s !! r.
Proof.
  cbn zeta. destruct (onUdpMessage_routing open msg s) as (? & ? & ? & ? & ?).
  repeat split; try done.
  intros r Hother. destruct (onUdpMessage_store open msg s r) as [_ [Hsame | Hthis]];
    [exact Hsame |].
  destruct Hthis as (ssrc & Hread & Hsub). now destruct (Hother ssrc Hread).
Qed.

(** X8. A datagram of 9 to 11 bytes passes the length guard and makes the
    read of the source id at offset 8 throw [ERR_OUT_OF_RANGE], in every
    state of the receiver, which is left as it is. *)
Theorem onUdpMessage_source_id_out_of_range
    (open : Buffer.t -> Buffer.t -> Buffer.t -> option Buffer.t)
    (msg : Buffer.t) (s : VoiceReceiver) :
  8 < Buffer.length msg < 12 ->
  onUdpMessage open msg s = (s, Throw ERR_OUT_OF_RANGE).
Proof.
  intros Hlen. unfold onUdpMessage.
  destruct (Z.leb_spec (Buffer.length msg) 8); [lia |].
  destruct (Buffer.readUInt32BE msg 8) as [ssrc | e] eqn:Hread.
  - apply readUInt32BE_length in Hread. lia.
  - unfold Buffer.readUInt32BE in Hread.
    repeat case_match; try discriminate; now injection Hread as <-.
Qed.

(** X9. A datagram of at most 8 or at least 12 bytes is dropped silently
    (the handler returns, the receiver is as before) when it has at most
    8 bytes, when its source id has no subscription or no binding in the
    registry, or when the encryption mode, the nonce buffer or the secret
    key is absent. *)
Theorem onUdpMessage_drops_silently
    (open : Buffer.t -> Buffer.t -> Buffer.t -> option Buffer.t)
    (msg : Buffer.t) (s : VoiceReceiver) :
  dropCondition msg s ->
  Buffer.length msg <= 8 \/ 12 <= Buffer.length msg ->
  onUdpMessage open msg s = (s, Normal tt).
Proof.
  intros Hdrop Hlen.
  destruct (onUdpMessage_silent_drop open msg s Hdrop) as [Hstate Hreturn].
  specialize (Hreturn Hlen).
  destruct (onUdpMessage open msg s) as [s' c]. cbn in *. congruence.
Qed.

(** X10. Authentication failure: for a subscribed and identified source
    id and a datagram that holds the mode's trailing nonce, when the
    primitive rejects the ciphertext span the handler returns, the stream
    subscribed to the source id is destroyed with the parse error (the
    frames it holds stay), and nothing is pushed. *)
Theorem onUdpMessage_authentication_failure
    (open : Buffer.t -> Buffer.t -> Buffer.t -> option Buffer.t)
    (msg : Buffer.t) (s : VoiceReceiver) (ssrc : Z) (stream : nat)
    (mode : string) (nonce key : Buffer.t) :
  Buffer.readUInt32BE msg 8 = Normal ssrc ->
  subscriptions s !! ssrc = Some stream ->
  is_Some (SSRCMap.get (TargetSSRC ssrc) (ssrcMap s)) ->
  connectionData s
  = {| encryptionMode := Some mode; nonceBuffer := Some nonce; secretKey := Some key |} ->
  mode <> "" ->
  (trailingNonce (cipherMode mode) <= length msg)%nat ->
  let m := cipherMode mode in
  let nonce' := writtenAtStart (nonceBytes m msg) nonce in
  open (drop 12 (take (ciphertextEnd m msg) msg)) nonce' key = None ->
  onUdpMessage open msg s
  = (withStore (alter (destroy FailedToParsePacket) stream (store s))
       (withNonceBuffer nonce' s),
     Normal tt).
Proof.
  intros Hread Hsub Hget Hcd Hmode Hlen m nonce' Hopen.
  rewrite (onUdpMessage_routed open msg s ssrc stream mode nonce key) by done.
  pose proof (decrypt_selects open msg mode nonce key Hlen) as Hsel.
  unfold selectsAsSpecified in Hsel. fold m nonce' in Hsel.
  unfold parsePacket. now rewrite Hsel, Hopen.
Qed.

(** X11. Delivery: for a subscribed and identified source id and a
    datagram that holds the mode's trailing nonce, when the primitive
    opens the ciphertext span to a payload that strips to [frame], the
    handler returns and [frame] is pushed to the stream subscribed to the
    source id: an open stream holds it as its last frame. *)
Theorem onUdpMessage_delivers_frame
    (open : Buffer.t -> Buffer.t -> Buffer.t -> option Buffer.t)
    (msg : Buffer.t) (s : VoiceReceiver) (ssrc : Z) (stream : nat)
    (mode : string) (nonce key packet frame : Buffer.t) (st : AudioReceiveStream) :
  Buffer.readUInt32BE msg 8 = Normal ssrc ->
  subscriptions s !! ssrc = Some stream ->
  is_Some (SSRCMap.get (TargetSSRC ssrc) (ssrcMap s)) ->
  connectionData s
  = {| encryptionMode := Some mode; nonceBuffer := Some nonce; secretKey := Some key |} ->
  mode <> "" ->
  (trailingNonce (cipherMode mode) <= length msg)%nat ->
  let m := cipherMode mode in
  let nonce' := writtenAtStart (nonceBytes m msg) nonce in
  open (drop 12 (take (ciphertextEnd m msg) msg)) nonce' key = Some packet ->
  stripHeaderExtensions packet = Normal frame ->
  store s !! stream = Some st ->
  destroyed st = None ->
  let s' := fst (onUdpMessage open msg s) in
  snd (onUdpMessage open msg s) = Normal tt
  /\ store s' !! stream
     = Some {| frames := frames st ++ [frame]; destroyed := None;
               closeListeners := closeListeners st |}
  /\ nonceBuffer (connectionData s') = Some nonce'.
Proof.
  intros Hread Hsub Hget Hcd Hmode Hlen m nonce' Hopen Hstrip Hst Hopen_stream.
  cbn zeta.
  rewrite (onUdpMessage_routed open msg s ssrc stream mode nonce key) by done.
  pose proof (decrypt_selects open msg mode nonce key Hlen) as Hsel.
  unfold selectsAsSpecified in Hsel. fold m nonce' in Hsel.
  unfold parsePacket. rewrite Hsel, Hopen, Hstrip. cbn.
  repeat split. rewrite list_lookup_alter_eq, Hst. cbn.
  unfold push. now rewrite Hopen_stream.
Qed.

(** X12. Over any run of datagrams, the frames a stream holds stay in
    place and in order (new ones are added at the end), and a destroyed
    stream does not change any more. *)
Theorem runDatagrams_append_only
    (open : Buffer.t -> Buffer.t -> Buffer.t -> option Buffer.t)
    (msgs : list Buffer.t) (s : VoiceReceiver) (r : nat) (st : AudioReceiveStream) :
  store s !! r = Some st ->
  exists st', store (runDatagrams open msgs s) !! r = Some st'
              /\ frames st `prefix_of` frames st'
              /\ (is_Some (destroyed st) -> st' = st).
Proof.
  revert s st. induction msgs as [| msg msgs IH]; intros s st Hst.
  - exists st. done.
  - rewrite runDatagrams_cons.
    destruct (onUdpMessage_append_only open msg s r st Hst) as (st1 & Hst1 & Hpre1 & Hfix1).
    destruct (IH _ st1 Hst1) as (st2 & Hst2 & Hpre2 & Hfix2).
    exists st2. split; [exact Hst2 |]. split.
    + now transitivity (frames st1).
    + intros Hd. specialize (Hfix1 Hd). subst st1. now apply Hfix2.
Qed.

(** ** Further properties of subscriptions and signaling *)

Lemma consistent_new : consistent newVoiceReceiver.
Proof.
  split; [apply wellFormed_new |].
  split; [intros r st n | intros r st]; cbn; now rewrite lookup_nil.
Qed.

Lemma consistent_onWsPacket (packet : WsPacket) (s : VoiceReceiver) :
  consistent s -> consistent (onWsPacket packet s).
Proof.
  intros Hc. unfold onWsPacket. repeat case_match; exact Hc.
Qed.

Lemma consistent_withConnectionData (c : ConnectionData) (s : VoiceReceiver) :
  consistent s -> consistent (withConnectionData c s).
Proof. intros Hc. exact Hc. Qed.

Lemma consistent_onUdpMessage open (msg : Buffer.t) (s : VoiceReceiver) :
  consistent s -> consistent (fst (onUdpMessage open msg s)).
Proof.
  intros (Hwf & Hmatch & Hsingle).
  destruct (onUdpMessage_routing open msg s) as (_ & Hsubs & _).
  split; [now apply wellFormed_onUdpMessage |].
  split; [intros r st' n Hst' Hin | intros r st' Hst'].
  - rewrite Hsubs.
    destruct (onUdpMessage_store open msg s r) as [Hlisteners _].
    rewrite Hst' in Hlisteners. cbn in Hlisteners.
    destruct (store s !! r) as [st |] eqn:Hst; [| done].
    injection Hlisteners as Heq. apply (Hmatch r st n Hst). now rewrite <- Heq.
  - destruct (onUdpMessage_store open msg s r) as [Hlisteners _].
    rewrite Hst' in Hlisteners. cbn in Hlisteners.
    destruct (store s !! r) as [st |] eqn:Hst; [| done].
    injection Hlisteners as Heq. rewrite Heq. now apply (Hsingle r st).
Qed.

Lemma consistent_subscribe (target : SubscribeTarget) (s : VoiceReceiver) :
  consistent s -> consistent (fst (subscribe target s)).
Proof.
  intros Hc. split; [apply wellFormed_subscribe, Hc |].
  destruct Hc as (Hwf & Hmatch & Hsingle). unfold subscribe.
  destruct (falsy _); [done |].
  destruct (SSRCMap.audioSSRC <$> SSRCMap.get target (ssrcMap s)) as [n |]; [| done].
  destruct (subscriptions s !! n) as [existing |] eqn:Hsub; [done |].
  split; [intros r st k; cbn; intros Hst Hin | intros r st; cbn; intros Hst].
  - apply lookup_app_Some in Hst as [Hold | [Hlen Hnew]].
    + pose proof (Hmatch r st k Hold Hin) as Hk.
      rewrite lookup_insert_ne; [done | congruence].
    + apply list_lookup_singleton_Some in Hnew as [Hr <-].
      cbn in Hin. apply list_elem_of_singleton in Hin as ->.
      rewrite lookup_insert_eq. f_equal. lia.
  - apply lookup_app_Some in Hst as [Hold | [Hlen Hnew]].
    + now apply (Hsingle r st).
    + apply list_lookup_singleton_Some in Hnew as [Hr <-]. cbn. lia.
Qed.

Lemma consistent_emitClose (stream : nat) (s : VoiceReceiver) :
  consistent s -> consistent (emitClose stream s).
Proof.
  intros Hc. split; [apply wellFormed_emitClose, Hc |].
  destruct Hc as (Hwf & Hmatch & Hsingle). unfold emitClose.
  destruct (store s !! stream) as [st0 |] eqn:Hst0; [| done].
  split; [intros r st k; cbn; intros Hst Hin | intros r st; cbn; intros Hst].
  - destruct (decide (r = stream)) as [-> | Hne].
    + rewrite list_lookup_insert_eq in Hst by now apply lookup_lt_Some in Hst0.
      injection Hst as <-. cbn in Hin. now apply elem_of_nil in Hin.
    + rewrite list_lookup_insert_ne in Hst by done.
      rewrite lookup_foldl_delete. rewrite decide_False; [now apply (Hmatch r st) |].
      intros Hin0. pose proof (Hmatch stream st0 k Hst0 Hin0) as H0.
      pose proof (Hmatch r st k Hst Hin) as H1. congruence.
  - destruct (decide (r = stream)) as [-> | Hne].
    + rewrite list_lookup_insert_eq in Hst by now apply lookup_lt_Some in Hst0.
      injection Hst as <-. cbn. lia.
    + rewrite list_lookup_insert_ne in Hst by done. now apply (Hsingle r st).
Qed.

(** Every state a receiver can be in is consistent. *)
Lemma reachable_consistent open (s : VoiceReceiver) :
  reachable open s -> consistent s.
Proof.
  induction 1.
  - apply consistent_new.
  - now apply consistent_onWsPacket.
  - now apply consistent_onUdpMessage.
  - now apply consistent_subscribe.
  - now apply consistent_withConnectionData.
  - now apply consistent_emitClose.
Qed.

(** In a consistent state the stream subscribed to [n] has the one
    'close' handler that deletes the subscription of [n]. *)
Lemma consistent_listeners (s : VoiceReceiver) (n : Z) (stream : nat) :
  consistent s ->
  subscriptions s !! n = Some stream ->
  exists st, store s !! stream = Some st /\ closeListeners st = [n].
Proof.
  intros (Hwf & _ & Hsingle) Hsub.
  destruct (Hwf n stream Hsub) as (st & Hst & Hin).
  exists st. split; [exact Hst |].
  specialize (Hsingle stream st Hst).
  destruct (closeListeners st) as [| k [| k' l]]; cbn in Hsingle; [| | lia].
  - now apply elem_of_nil in Hin.
  - now apply list_elem_of_singleton in Hin as ->.
Qed.

(** X13. [subscribe] changes neither the registry nor the cipher context,
    keeps every stream of the store at its address, and keeps every
    subscription: whether it returns or throws, no channel is lost or
    replaced. *)
Theorem subscribe_keeps_existing (target : SubscribeTarget) (s : VoiceReceiver) :
  let s1 := fst (subscribe target s) in
  ssrcMap s1 = ssrcMap s
  /\ connectionData s1 = connectionData s
  /\ store s `prefix_of` store s1
  /\ forall (k : Z) (r : nat),
       subscriptions s !! k = Some r -> subscriptions s1 !! k = Some r.
Proof.
  cbn zeta. unfold subscribe.
  destruct (falsy _); [done |].
  destruct (SSRCMap.audioSSRC <$> SSRCMap.get target (ssrcMap s)) as [n |]; [| done].
  destruct (subscriptions s !! n) as [existing |] eqn:Hsub; [done |].
  cbn. repeat split; [now apply prefix_app_r |].
  intros k r Hk. rewrite lookup_insert_ne; [done | congruence].
Qed.

(** X14. In every state a receiver can reach, two different source ids
    are never subscribed to the same stream. *)
Theorem subscriptions_injective
    (open : Buffer.t -> Buffer.t -> Buffer.t -> option Buffer.t)
    (s : VoiceReceiver) (a b : Z) (stream : nat) :
  reachable open s ->
  subscriptions s !! a = Some stream ->
  subscriptions s !! b = Some stream ->
  a = b.
Proof.
  intros Hc%reachable_consistent Ha Hb.
  destruct (consistent_listeners s a stream Hc Ha) as (st & Hst & Hla).
  destruct (consistent_listeners s b stream Hc Hb) as (st' & Hst' & Hlb).
  congruence.
Qed.

(** X15. In every state a receiver can reach, the 'close' notification of
    the stream subscribed to a source id removes the subscription of that
    source id and no other, and leaves the registry as it is. *)
Theorem emitClose_removes_its_subscription
    (open : Buffer.t -> Buffer.t -> Buffer.t -> option Buffer.t)
    (s : VoiceReceiver) (n : Z) (stream : nat) :
  reachable open s ->
  subscriptions s !! n = Some stream ->
  subscriptions (emitClose stream s) = base.delete n (subscriptions s)
  /\ ssrcMap (emitClose stream s) = ssrcMap s.
Proof.
  intros Hc%reachable_consistent Hsub.
  destruct (consistent_listeners s n stream Hc Hsub) as (st & Hst & Hlisteners).
  unfold emitClose. rewrite Hst, Hlisteners. cbn. done.
Qed.

(** X16. In every state a receiver can reach: after the stream subscribed
    to a non-zero source id has closed, [subscribe] for a target that
    resolves to this source id returns a new stream, at an address the
    store did not have, that is empty and open; the closed stream keeps
    its address. *)
Theorem resubscribe_after_close
    (open : Buffer.t -> Buffer.t -> Buffer.t -> option Buffer.t)
    (target : SubscribeTarget) (s : VoiceReceiver) (n : Z) (stream : nat) :
  reachable open s ->
  SSRCMap.audioSSRC <$> SSRCMap.get target (ssrcMap s) = Some n ->
  n <> 0 ->
  subscriptions s !! n = Some stream ->
  let closed := emitClose stream s in
  let fresh := length (store s) in
  snd (subscribe target closed) = Normal fresh
  /\ fresh <> stream
  /\ store (fst (subscribe target closed)) !! fresh
     = Some {| frames := []; destroyed := None; closeListeners := [n] |}
  /\ subscriptions (fst (subscribe target closed)) !! n = Some fresh.
Proof.
  intros Hc%reachable_consistent Hres Hn Hsub closed fresh.
  destruct (consistent_listeners s n stream Hc Hsub) as (st & Hst & Hlisteners).
  assert (closed
          = withSubscriptions (base.delete n (subscriptions s))
              (withStore (<[stream := {| frames := frames st; destroyed := destroyed st;
                                         closeListeners := [] |}]> (store s)) s)) as Hclosed.
  { unfold closed, emitClose. now rewrite Hst, Hlisteners. }
  assert (length (store closed) = fresh) as Hlen.
  { rewrite Hclosed. cbn. apply length_insert. }
  unfold subscribe.
  assert (ssrcMap closed = ssrcMap s) as -> by now rewrite Hclosed.
  rewrite Hres. cbn [falsy]. destruct (Z.eqb_spec n 0); [contradiction |].
  assert (subscriptions closed !! n = None) as ->.
  { rewrite Hclosed. cbn. apply lookup_delete_eq. }
  cbn. rewrite Hlen. repeat split.
  - apply lookup_lt_Some in Hst. unfold fresh. lia.
  - rewrite lookup_app_r by lia. now rewrite Hlen, Nat.sub_diag.
  - apply lookup_insert_eq.
Qed.

(** X17. A signaling packet changes at most the registry: subscriptions,
    streams and cipher context are as before, whatever the packet. *)
Theorem onWsPacket_changes_only_registry (packet : WsPacket) (s : VoiceReceiver) :
  subscriptions (onWsPacket packet s) = subscriptions s
  /\ store (onWsPacket packet s) = store s
  /\ connectionData (onWsPacket packet s) = connectionData s.
Proof. unfold onWsPacket. repeat case_match; done. Qed.

(** X18. A signaling packet without a string user id (no payload, no
    [user_id], or one that is not a string) is ignored, whatever its
    opcode. *)
Theorem onWsPacket_ignores_without_user_id (packet : WsPacket) (s : VoiceReceiver) :
  (forall user, field user_id packet <> JsString user) ->
  onWsPacket packet s = s.
Proof.
  intros Hno. unfold onWsPacket.
  destruct (field user_id packet) as [| n | user] eqn:Huser;
    [| | now destruct (Hno user)];
    destruct (op packet); reflexivity.
Qed.

(** X19. After a [ClientDisconnect] packet for a user, [subscribe] by that
    user id throws the error that names the target and changes nothing;
    the packet itself leaves the subscriptions and streams as they are. *)
Theorem disconnect_then_subscribe_throws (user : string) (s : VoiceReceiver) :
  let s' := onWsPacket (clientDisconnect user) s in
  subscribe (TargetUser user) s' = (s', Throw (NoKnownSSRC (TargetUser user)))
  /\ subscriptions s' = subscriptions s
  /\ store s' = store s.
Proof.
  cbn zeta. split; [| done].
  apply subscribe_throws. cbn. unfold SSRCMap.delete. now rewrite lookup_delete_eq.
Qed.

(** X20. After a [Speaking] packet that announces a user with a non-zero
    source id, [subscribe] by that user id returns a stream and registers
    it under the announced source id. *)
Theorem speaking_then_subscribe (user : string) (n : Z) (s : VoiceReceiver) :
  n <> 0 ->
  let s' := onWsPacket (speaking user n) s in
  exists stream,
    snd (subscribe (TargetUser user) s') = Normal stream
    /\ subscriptions (fst (subscribe (TargetUser user) s')) !! n = Some stream.
Proof.
  intros Hn s'.
  assert (SSRCMap.audioSSRC <$> SSRCMap.get (TargetUser user) (ssrcMap s') = Some n) as Hres.
  { unfold s'. cbn. unfold SSRCMap.update. cbn. now rewrite lookup_insert_eq. }
  destruct (subscribe (TargetUser user) s') as [s1 c] eqn:Hsubscribe.
  destruct c as [stream | e].
  - exists stream. split; [done |].
    destruct (subscribe_resolved _ _ _ _ Hsubscribe) as (k & Hk & _ & _ & Hsub & _).
    rewrite Hres in Hk. injection Hk as <-. exact Hsub.
  - exfalso. unfold subscribe in Hsubscribe. rewrite Hres in Hsubscribe.
    cbn [falsy] in Hsubscribe. destruct (Z.eqb_spec n 0); [contradiction |].
    destruct (subscriptions s' !! n); discriminate.
Qed.

(** X21. A new receiver has no binding and no subscription: [subscribe]
    throws for every target, and every datagram leaves it as it is. *)
Theorem newVoiceReceiver_is_idle :
  (forall target,
     subscribe target newVoiceReceiver
     = (newVoiceReceiver, Throw (NoKnownSSRC target)))
  /\ forall open msg, fst (onUdpMessage open msg newVoiceReceiver) = newVoiceReceiver.
Proof.
  split.
  - intros target. apply subscribe_throws. destruct target; reflexivity.
  - intros open msg.
    destruct (onUdpMessage_outcome open msg newVoiceReceiver)
      as [| | ssrc stream ? ? ? ? result _ Hsub]; [done | done |].
    cbn in Hsub. now rewrite lookup_empty in Hsub.
Qed.

(** ** Instances of the further properties *)

Lemma reachable_exampleReceiver open (mode : string) :
  reachable open (exampleReceiver mode).
Proof.
  apply reach_connectionData, reach_subscribe, reach_onWsPacket, reach_new.
Qed.

(** X3 at [examplePayload]. *)
Lemma stripHeaderExtensions_returns_tail_witness :
  stripHeaderExtensions examplePayload = Normal [xcc; xdd]
  /\ exists n, (4 <= n <= length examplePayload)%nat /\ [xcc; xdd] = drop n examplePayload.
Proof.
  assert (stripHeaderExtensions examplePayload = Normal [xcc; xdd]) as Hstrip by reflexivity.
  split; [exact Hstrip |].
  destruct (stripHeaderExtensions_returns_tail examplePayload [xcc; xdd] Hstrip)
    as [[Hsame _] | [_ Htail]]; [discriminate Hsame | exact Htail].
Defined.

(** X6 at a lite-mode datagram with a two-byte payload. *)
Lemma parsePacket_plain_or_failed_witness :
  (trailingNonce (cipherMode "xsalsa20_poly1305_lite") <= length (liteDatagram [xaa; xbb]))%nat
  /\ parsePacket exampleOpen (liteDatagram [xaa; xbb]) "xsalsa20_poly1305_lite"
       (replicate 24 x00) (replicate 32 x00)
     = ([x00; x00; x00; x07] ++ replicate 20 x00, Normal (Some [xaa; xbb])).
Proof.
  assert (trailingNonce (cipherMode "xsalsa20_poly1305_lite")
          <= length (liteDatagram [xaa; xbb]))%nat as Hlen by (vm_compute; lia).
  split; [exact Hlen |].
  refine (proj2 (parsePacket_plain_or_failed exampleOpen (liteDatagram [xaa; xbb])
                   "xsalsa20_poly1305_lite" (replicate 24 x00) (replicate 32 x00) Hlen)
                [xaa; xbb] eq_refl _).
  intros [[rest Hmarker] _]. discriminate Hmarker.
Defined.

(** X8 at a 10-byte datagram. *)
Lemma onUdpMessage_source_id_out_of_range_witness :
  8 < Buffer.length (take 10 exampleHeader) < 12
  /\ onUdpMessage exampleOpen (take 10 exampleHeader) (exampleReceiver "xsalsa20_poly1305_lite")
     = (exampleReceiver "xsalsa20_poly1305_lite", Throw ERR_OUT_OF_RANGE).
Proof.
  assert (8 < Buffer.length (take 10 exampleHeader) < 12) as Hlen by (split; reflexivity).
  split; [exact Hlen |].
  exact (onUdpMessage_source_id_out_of_range exampleOpen _ _ Hlen).
Defined.

(** X9 at a 12-byte datagram and a new receiver. *)
Lemma onUdpMessage_drops_silently_witness :
  dropCondition exampleHeader newVoiceReceiver
  /\ (Buffer.length exampleHeader <= 8 \/ 12 <= Buffer.length exampleHeader)
  /\ onUdpMessage exampleOpen exampleHeader newVoiceReceiver = (newVoiceReceiver, Normal tt).
Proof.
  assert (dropCondition exampleHeader newVoiceReceiver) as Hdrop
    by (do 3 right; left; reflexivity).
  assert (Buffer.length exampleHeader <= 8 \/ 12 <= Buffer.length exampleHeader) as Hlen
    by (right; vm_compute; discriminate).
  split; [exact Hdrop |]. split; [exact Hlen |].
  exact (onUdpMessage_drops_silently exampleOpen _ _ Hdrop Hlen).
Defined.

(** X10 at a lite-mode datagram with nothing between header and nonce. *)
Lemma onUdpMessage_authentication_failure_witness :
  let s := exampleReceiver "xsalsa20_poly1305_lite" in
  let msg := exampleHeader ++ [x00; x00; x00; x07] in
  snd (onUdpMessage exampleOpen msg s) = Normal tt
  /\ store (fst (onUdpMessage exampleOpen msg s))
     = [{| frames := []; destroyed := Some FailedToParsePacket; closeListeners := [1234] |}].
Proof.
  intros s msg.
  assert (onUdpMessage exampleOpen msg s
          = (withStore (alter (destroy FailedToParsePacket) 0%nat (store s))
               (withNonceBuffer
                  (writtenAtStart (nonceBytes (cipherMode "xsalsa20_poly1305_lite") msg)
                     (replicate 24 x00)) s),
             Normal tt)) as Heq.
  { apply (onUdpMessage_authentication_failure exampleOpen msg s 1234 0%nat
             "xsalsa20_poly1305_lite" (replicate 24 x00) (replicate 32 x00)).
    - reflexivity.
    - reflexivity.
    - eexists. reflexivity.
    - reflexivity.
    - discriminate.
    - vm_compute. lia.
    - reflexivity. }
  rewrite Heq. split; reflexivity.
Defined.

(** X11 at a lite-mode datagram with a two-byte payload. *)
Lemma onUdpMessage_delivers_frame_witness :
  let s := exampleReceiver "xsalsa20_poly1305_lite" in
  let msg := liteDatagram [xaa; xbb] in
  snd (onUdpMessage exampleOpen msg s) = Normal tt
  /\ store (fst (onUdpMessage exampleOpen msg s)) !! 0%nat
     = Some {| frames := [[xaa; xbb]]; destroyed := None; closeListeners := [1234] |}.
Proof.
  intros s msg.
  destruct (onUdpMessage_delivers_frame exampleOpen msg s 1234 0%nat
              "xsalsa20_poly1305_lite" (replicate 24 x00) (replicate 32 x00)
              [xaa; xbb] [xaa; xbb]
              {| frames := []; destroyed := None; closeListeners := [1234] |})
    as (Hreturn & Hstore & _).
  - reflexivity.
  - reflexivity.
  - eexists. reflexivity.
  - reflexivity.
  - discriminate.
  - vm_compute. lia.
  - reflexivity.
  - reflexivity.
  - reflexivity.
  - reflexivity.
  - split; [exact Hreturn | exact Hstore].
Defined.

(** X12 for the example receiver's stream and one datagram. *)
Lemma runDatagrams_append_only_witness :
  let s := exampleReceiver "xsalsa20_poly1305_lite" in
  let st := {| frames := []; destroyed := None; closeListeners := [1234] |} in
  store s !! 0%nat = Some st
  /\ exists st', store (runDatagrams exampleOpen [liteDatagram [xaa; xbb]] s) !! 0%nat = Some st'
                 /\ frames st `prefix_of` frames st'.
Proof.
  intros s st.
  assert (store s !! 0%nat = Some st) as Hst by reflexivity.
  split; [exact Hst |].
  destruct (runDatagrams_append_only exampleOpen [liteDatagram [xaa; xbb]] s 0%nat st Hst)
    as (st' & Hst' & Hprefix & _).
  exists st'. split; [exact Hst' | exact Hprefix].
Defined.

(** X14 for the example receiver. *)
Lemma subscriptions_injective_witness :
  subscriptions (exampleReceiver "xsalsa20_poly1305_lite") !! 1234 = Some 0%nat
  /\ 1234 = 1234.
Proof.
  assert (subscriptions (exampleReceiver "xsalsa20_poly1305_lite") !! 1234 = Some 0%nat)
    as Hsub by reflexivity.
  split; [exact Hsub |].
  exact (subscriptions_injective exampleOpen _ 1234 1234 0%nat
           (reachable_exampleReceiver exampleOpen _) Hsub Hsub).
Defined.

(** X15 for the example receiver. *)
Lemma emitClose_removes_its_subscription_witness :
  let s := exampleReceiver "xsalsa20_poly1305_lite" in
  subscriptions s !! 1234 = Some 0%nat
  /\ subscriptions (emitClose 0 s) = base.delete 1234 (subscriptions s).
Proof.
  intros s.
  assert (subscriptions s !! 1234 = Some 0%nat) as Hsub by reflexivity.
  split; [exact Hsub |].
  exact (proj1 (emitClose_removes_its_subscription exampleOpen s 1234 0%nat
                  (reachable_exampleReceiver exampleOpen _) Hsub)).
Defined.

(** X16 for the example receiver and "alice". *)
Lemma resubscribe_after_close_witness :
  let s := exampleReceiver "xsalsa20_poly1305_lite" in
  subscriptions s !! 1234 = Some 0%nat
  /\ snd (subscribe (TargetUser "alice") (emitClose 0 s)) = Normal 1%nat.
Proof.
  intros s.
  assert (subscriptions s !! 1234 = Some 0%nat) as Hsub by reflexivity.
  split; [exact Hsub |].
  refine (proj1 (resubscribe_after_close exampleOpen (TargetUser "alice") s 1234 0%nat
                   (reachable_exampleReceiver exampleOpen _) eq_refl _ Hsub)).
  discriminate.
Defined.

(** X18 at a packet without payload. *)
Lemma onWsPacket_ignores_without_user_id_witness :
  onWsPacket {| op := Speaking; d := None |} (exampleReceiver "xsalsa20_poly1305_lite")
  = exampleReceiver "xsalsa20_poly1305_lite".
Proof.
  apply onWsPacket_ignores_without_user_id. intros user. discriminate.
Defined.

(** X20 for "alice" announced with source id 1234 at a new receiver. *)
Lemma speaking_then_subscribe_witness :
  1234 <> 0
  /\ exists stream,
       snd (subscribe (TargetUser "alice") (onWsPacket (speaking "alice" 1234) newVoiceReceiver))
       = Normal stream
       /\ subscriptions
            (fst (subscribe (TargetUser "alice")
                    (onWsPacket (speaking "alice" 1234) newVoiceReceiver))) !! 1234
          = Some stream.
Proof.
  assert (1234 <> 0) as Hn by discriminate.
  split; [exact Hn |].
  exact (speaking_then_subscribe "alice" 1234 newVoiceReceiver Hn).
Defined.
